(** * FuelEU Maritime compliance platform: compliance balance, banking, pooling

    A shallow embedding of the domain core of the platform:
    - [backend/server.ts]: [CONSTANTS], [ComplianceService.calculateCB],
      [ComplianceService.bankSurplus], the two Postgres adapters they are
      wired to, and [seedDatabase];
    - [frontend/src/App.tsx]: [handleCreatePool], the pool selection, the
      guard of the "Verify & Create Pool" button and the figures of the
      header and of the comparison tab.

    The code is embedded twice.

    The first embedding reads the code over the decimals.  A TypeScript
    [number] that holds a decimal quantity (GHG intensity, fuel
    consumption, ledger amounts, balances) is a rational [Q]; [+], [-],
    [*] are the exact operations and [<=], [<], [>=] the exact
    comparisons; a column holds the value written to it; identifiers,
    years and timestamps are integers [Z].  It carries the properties that
    do not depend on how a value is rounded or stored: which rows a call
    reads and writes, how the fields of a result are related, when a call
    is refused.

    The second embedding, the modules [Binary64], [Pg] and [Exec], has the
    arithmetic and the column types of the running system: a [number] is an
    IEEE 754 binary64 value and every operation rounds to nearest, ties to
    even; a DECIMAL(15,2) cell keeps two decimals and fewer than fourteen
    integer digits; an INT parameter takes 32 bits; a VARCHAR(50) cell
    takes fifty characters; the primary and foreign keys of [bank_entries]
    are checked.  It carries the properties that depend on the values
    computed and stored. *)

From Stdlib Require Import QArith Qpower Qround ZArith List String Ascii Bool Lia Lqa.
From Stdlib Require Import SpecFloat.
From Stdlib Require Import Sorting.Sorted Sorting.Permutation.
Import ListNotations.

Local Open Scope Q_scope.

(** ** Numbers *)

(** A [number] read as the decimal it stands for; [Binary64.t] is the
    [number] as the machine holds it. *)
Definition number : Type := Q.

(** [Number(x)] and [parseFloat(x)] applied to a value that already is a
    decimal quantity. *)
Definition Number (x : number) : number := x.
Definition parseFloat (x : Q) : number := x.

(** [x <= y], [x >= y] and [x < y] as JavaScript evaluates them. *)
Definition num_le (x y : number) : bool := Qle_bool x y.
Definition num_ge (x y : number) : bool := Qle_bool y x.
Definition num_lt (x y : number) : bool := negb (Qle_bool y x).

(** [arr.reduce(f, init)] *)
Definition reduce {A B : Type} (f : B -> A -> B) (init : B) (arr : list A) : B :=
  fold_left f arr init.

(** ** Failure: [throw new Error(message)] *)

Inductive Result (A : Type) : Type :=
| Ok (value : A)
| Throw (message : string).
Arguments Ok {A} value.
Arguments Throw {A} message.

Definition bind {A B : Type} (c : Result A) (k : A -> Result B) : Result B :=
  match c with
  | Ok a => k a
  | Throw e => Throw e
  end.

Notation "x <- c ;; k" := (bind c (fun x => k))
  (at level 61, c at next level, right associativity).

(** [Promise.all(arr.map(async x => f x))]: every element must resolve. *)
Fixpoint mapM {A B : Type} (f : A -> Result B) (arr : list A) : Result (list B) :=
  match arr with
  | [] => Ok []
  | x :: rest =>
      y <- f x ;;
      ys <- mapM f rest ;;
      Ok (y :: ys)
  end.

(** ** Domain entities *)

Module Route.
Record t : Type := mk {
  id : Z;
  routeId : string;
  vesselType : string;
  fuelType : string;
  year : Z;
  ghgIntensity : number;
  fuelConsumption : number;
  distance : number;
  totalEmissions : number;
  isBaseline : bool
}.
End Route.

(** The union type ['banked' | 'applied']. *)
Inductive EntryType : Type := banked | applied.

Definition EntryType_eqb (a b : EntryType) : bool :=
  match a, b with
  | banked, banked => true
  | applied, applied => true
  | _, _ => false
  end.

Module BankEntry.
Record t : Type := mk {
  id : option Z;
  routeId : string;
  year : Z;
  type : EntryType;
  amount : number;
  createdAt : option Z
}.
End BankEntry.

Module ComplianceResult.
Record t : Type := mk {
  cb : number;
  banked : number;
  adjustedCB : number
}.
End ComplianceResult.

Module CONSTANTS.
Definition GHG_TARGET_2025 : number := 89.3368.
Definition LCV : number := 41000.
End CONSTANTS.

(** [ORDER BY key] of a query: the rows in ascending order of [key] under
    the collation [le] of the column, by insertion. *)
Fixpoint order_insert {A K : Type} (le : K -> K -> bool) (key : A -> K)
         (x : A) (sorted : list A) : list A :=
  match sorted with
  | [] => [x]
  | y :: rest =>
      if le (key x) (key y)
      then x :: y :: rest
      else y :: order_insert le key x rest
  end.

Definition order_by {A K : Type} (le : K -> K -> bool) (key : A -> K) (rows : list A)
  : list A :=
  fold_right (order_insert le key) [] rows.

(** ** Persistence: the two tables the core reads and writes *)

Module RouteRow.
Record t : Type := mk {
  id : Z;
  route_id : string;
  vessel_type : string;
  fuel_type : string;
  year : Z;
  ghg_intensity : Q;
  fuel_consumption : Q;
  distance : Q;
  total_emissions : Q;
  is_baseline : bool
}.
End RouteRow.

Module BankRow.
Record t : Type := mk {
  id : Z;
  route_id : string;
  year : Z;
  type : EntryType;
  amount_gco2eq : Q;
  created_at : Z
}.
End BankRow.

(** The database: both tables in insertion order, the SERIAL sequence of
    [bank_entries.id] and the value of CURRENT_TIMESTAMP. *)
Record Database : Type := mkDatabase {
  routes : list RouteRow.t;
  bank_entries : list BankRow.t;
  bank_entries_id_seq : Z;
  current_timestamp : Z
}.

Module PostgresRouteAdapter.

Definition mapRowToRoute (row : RouteRow.t) : Route.t :=
  {| Route.id := RouteRow.id row;
     Route.routeId := RouteRow.route_id row;
     Route.vesselType := RouteRow.vessel_type row;
     Route.fuelType := RouteRow.fuel_type row;
     Route.year := RouteRow.year row;
     Route.ghgIntensity := parseFloat (RouteRow.ghg_intensity row);
     Route.fuelConsumption := parseFloat (RouteRow.fuel_consumption row);
     Route.distance := parseFloat (RouteRow.distance row);
     Route.totalEmissions := parseFloat (RouteRow.total_emissions row);
     Route.isBaseline := RouteRow.is_baseline row |}.

(** [SELECT * FROM routes WHERE route_id = $1], then the first row or
    [null]. *)
Definition findByRouteId (db : Database) (id : string) : option Route.t :=
  match filter (fun row => String.eqb (RouteRow.route_id row) id) (routes db) with
  | [] => None
  | row :: _ => Some (mapRowToRoute row)
  end.

(** [SELECT * FROM routes ORDER BY route_id]; the collation of the
    [route_id] column is passed in. *)
Definition findAll (collation : string -> string -> bool) (db : Database)
  : list Route.t :=
  map mapRowToRoute (order_by collation RouteRow.route_id (routes db)).

(** A row after [UPDATE routes SET is_baseline = v]. *)
Definition set_is_baseline (v : bool) (row : RouteRow.t) : RouteRow.t :=
  {| RouteRow.id := RouteRow.id row;
     RouteRow.route_id := RouteRow.route_id row;
     RouteRow.vessel_type := RouteRow.vessel_type row;
     RouteRow.fuel_type := RouteRow.fuel_type row;
     RouteRow.year := RouteRow.year row;
     RouteRow.ghg_intensity := RouteRow.ghg_intensity row;
     RouteRow.fuel_consumption := RouteRow.fuel_consumption row;
     RouteRow.distance := RouteRow.distance row;
     RouteRow.total_emissions := RouteRow.total_emissions row;
     RouteRow.is_baseline := v |}.

(** The database with its [routes] table replaced. *)
Definition with_routes (db : Database) (rows : list RouteRow.t) : Database :=
  {| routes := rows;
     bank_entries := bank_entries db;
     bank_entries_id_seq := bank_entries_id_seq db;
     current_timestamp := current_timestamp db |}.

(** One transaction: look the year of the route up by [id]; clear the flag
    on every route of that year; set it on the route.  When the route is
    missing the transaction is rolled back and the error is thrown again.
    The [id] is any integer here; [Exec.PostgresRouteAdapter.setBaseline]
    binds it to the INT parameter of the query. *)
Definition setBaseline (db : Database) (id : Z) : Result unit * Database :=
  match filter (fun row => Z.eqb (RouteRow.id row) id) (routes db) with
  | [] => (Throw "Route not found", db)
  | routeRes :: _ =>
      let year := RouteRow.year routeRes in
      (* Reset others in same year *)
      let cleared :=
        map (fun row => if Z.eqb (RouteRow.year row) year
                        then set_is_baseline false row else row)
            (routes db) in
      (* Set new baseline *)
      let flagged :=
        map (fun row => if Z.eqb (RouteRow.id row) id
                        then set_is_baseline true row else row)
            cleared in
      (Ok tt, with_routes db flagged)
  end.

(** [SELECT * FROM routes WHERE is_baseline = TRUE AND year = $1], then the
    first row or [null].  The [year] is any integer here;
    [Exec.PostgresRouteAdapter.getBaseline] binds it to the INT parameter
    of the query. *)
Definition getBaseline (db : Database) (year : Z) : option Route.t :=
  match filter (fun row => RouteRow.is_baseline row && Z.eqb (RouteRow.year row) year)
               (routes db) with
  | [] => None
  | row :: _ => Some (mapRowToRoute row)
  end.

End PostgresRouteAdapter.

Module PostgresBankingAdapter.

Definition mapRow (row : BankRow.t) : BankEntry.t :=
  {| BankEntry.id := Some (BankRow.id row);
     BankEntry.routeId := BankRow.route_id row;
     BankEntry.year := BankRow.year row;
     BankEntry.type := BankRow.type row;
     BankEntry.amount := parseFloat (BankRow.amount_gco2eq row);
     BankEntry.createdAt := Some (BankRow.created_at row) |}.

(** [SELECT * FROM bank_entries WHERE route_id = $1] *)
Definition findByRouteId (db : Database) (id : string) : list BankEntry.t :=
  map mapRow
      (filter (fun row => String.eqb (BankRow.route_id row) id) (bank_entries db)).

(** [INSERT INTO bank_entries (route_id, year, type, amount_gco2eq)
    VALUES ... RETURNING *]: the row gets the next [id] and the current
    timestamp, and the inserted row is what the call returns.  The row
    holds the entry as it is here; [Exec.PostgresBankingAdapter.save] fits
    it into the column types and checks the keys. *)
Definition save (db : Database) (entry : BankEntry.t) : BankRow.t * Database :=
  let row :=
    {| BankRow.id := bank_entries_id_seq db;
       BankRow.route_id := BankEntry.routeId entry;
       BankRow.year := BankEntry.year entry;
       BankRow.type := BankEntry.type entry;
       BankRow.amount_gco2eq := BankEntry.amount entry;
       BankRow.created_at := current_timestamp db |} in
  (row,
   {| routes := routes db;
      bank_entries := bank_entries db ++ [row];
      bank_entries_id_seq := (bank_entries_id_seq db + 1)%Z;
      current_timestamp := current_timestamp db |}).

End PostgresBankingAdapter.

(** ** Domain logic: [ComplianceService] *)

Module ComplianceService.

Definition calculateCB (db : Database) (routeId : string) (year : Z)
  : Result ComplianceResult.t :=
  match PostgresRouteAdapter.findByRouteId db routeId with
  | None => Throw "Route not found"
  | Some route =>
      (* Core Formula: CB = (Target - Actual) * Energy *)
      let energyInScope := Route.fuelConsumption route * CONSTANTS.LCV in
      let cb := (CONSTANTS.GHG_TARGET_2025 - Route.ghgIntensity route) * energyInScope in
      let bankEntries := PostgresBankingAdapter.findByRouteId db routeId in
      let bankedSum :=
        reduce (fun sum e => sum + Number (BankEntry.amount e)) 0
               (filter (fun e => EntryType_eqb (BankEntry.type e) banked) bankEntries) in
      let appliedSum :=
        reduce (fun sum e => sum + Number (BankEntry.amount e)) 0
               (filter (fun e => EntryType_eqb (BankEntry.type e) applied) bankEntries) in
      let netBanked := bankedSum - appliedSum in
      Ok {| ComplianceResult.cb := cb;
            ComplianceResult.banked := netBanked;
            ComplianceResult.adjustedCB := cb + netBanked |}
  end.

(** The result is paired with the database after the call; a call that
    throws leaves the database as it was. *)
Definition bankSurplus (db : Database) (routeId : string) (year : Z)
  : Result BankRow.t * Database :=
  match calculateCB db routeId year with
  | Throw e => (Throw e, db)
  | Ok status =>
      if num_le (ComplianceResult.cb status) 0
      then (Throw "Cannot bank negative compliance balance", db)
      else
        let entry :=
          {| BankEntry.id := None;
             BankEntry.routeId := routeId;
             BankEntry.year := year;
             BankEntry.type := banked;
             BankEntry.amount := ComplianceResult.cb status;
             BankEntry.createdAt := None |} in
        let (row, db') := PostgresBankingAdapter.save db entry in
        (Ok row, db')
  end.

End ComplianceService.

(** ** Start-up: [seedDatabase] *)

(** The tables exist; [routes_id_seq] is the SERIAL sequence of
    [routes.id].  The five routes are inserted when the table holds no
    row; the function returns the sequence and the database afterwards. *)
Definition seedDatabase (routes_id_seq : Z) (db : Database) : Z * Database :=
  let count := Z.of_nat (List.length (routes db)) in
  if Z.eqb count 0
  then
    ((routes_id_seq + 5)%Z,
     PostgresRouteAdapter.with_routes
       db
       (routes db
        ++ [ RouteRow.mk routes_id_seq "R001" "Container" "HFO" 2024 91.0 5000 12000 4500 false;
             RouteRow.mk (routes_id_seq + 1) "R002" "BulkCarrier" "LNG" 2024 88.0 4800 11500 4200 false;
             RouteRow.mk (routes_id_seq + 2) "R003" "Tanker" "MGO" 2024 93.5 5100 12500 4700 false;
             RouteRow.mk (routes_id_seq + 3) "R004" "RoRo" "HFO" 2025 89.2 4900 11800 4300 false;
             RouteRow.mk (routes_id_seq + 4) "R005" "Container" "LNG" 2025 90.5 4950 11900 4400 false ]))
  else (routes_id_seq, db).

(** ** Frontend: the pooling tab of [App] *)

Module App.

(** A pool member is [{ ...r, ...comp }]: the route's fields together
    with the three fields of its compliance result (the two key sets are
    disjoint). *)
Module Member.
Record t : Type := mk {
  route : Route.t;
  comp : ComplianceResult.t
}.
Definition routeId (m : t) : string := Route.routeId (route m).
Definition adjustedCB (m : t) : number := ComplianceResult.adjustedCB (comp m).
End Member.

Module Allocation.
Record t : Type := mk {
  id : string;
  before : number;
  after : number
}.
End Allocation.

Module PoolResult.
Record t : Type := mk {
  totalCB : number;
  results : list Allocation.t;
  valid : bool
}.
End PoolResult.

(** [arr.includes(x)] on identifiers. *)
Definition includes (arr : list Z) (x : Z) : bool := existsb (Z.eqb x) arr.

(** [Array.prototype.sort(comparefn)]: a stable sort; [comparefn a b <= 0]
    keeps [a] before [b].  Elements are inserted from the right, so equal
    elements stay in their original order. *)
Fixpoint insert {A : Type} (comparefn : A -> A -> number) (a : A) (sorted : list A)
  : list A :=
  match sorted with
  | [] => [a]
  | b :: rest =>
      if num_le (comparefn a b) 0
      then a :: b :: rest
      else b :: insert comparefn a rest
  end.

Definition sort {A : Type} (comparefn : A -> A -> number) (arr : list A) : list A :=
  fold_right (insert comparefn) [] arr.

(** [api.getCompliance] is passed in: it resolves to the compliance result
    of a route identifier or rejects.  The function returns the value it
    hands to [setPoolResult]. *)
Definition handleCreatePool
           (getCompliance : string -> Result ComplianceResult.t)
           (routes : list Route.t) (poolSelection : list Z)
  : Result PoolResult.t :=
  let selectedRoutes := filter (fun r => includes poolSelection (Route.id r)) routes in
  members <- mapM (fun r =>
                     comp <- getCompliance (Route.routeId r) ;;
                     Ok (Member.mk r comp))
                  selectedRoutes ;;
  let totalCB := reduce (fun acc cur => acc + Member.adjustedCB cur) 0 members in
  (* Greedy allocation for demo *)
  let sorted :=
    sort (fun a b => Member.adjustedCB b - Member.adjustedCB a) members in
  let results :=
    map (fun m =>
           {| Allocation.id := Member.routeId m;
              Allocation.before := Member.adjustedCB m;
              Allocation.after :=
                if num_ge totalCB 0
                then (if num_lt (Member.adjustedCB m) 0 then 0 else Member.adjustedCB m)
                else Member.adjustedCB m |})
        sorted in
  Ok {| PoolResult.totalCB := totalCB;
        PoolResult.results := results;
        PoolResult.valid := num_ge totalCB 0 |}.

(** The part of the component state the pooling tab uses. *)
Record State : Type := mkState {
  routes : list Route.t;
  poolSelection : list Z;
  poolResult : option PoolResult.t
}.

(** [disabled={poolSelection.length < 2}] on "Verify & Create Pool". *)
Definition createPoolDisabled (st : State) : bool :=
  (List.length (poolSelection st) <? 2)%nat.

(** A click on the button: a disabled button does not run its handler. *)
Definition clickCreatePool
           (getCompliance : string -> Result ComplianceResult.t) (st : State)
  : Result State :=
  if createPoolDisabled st
  then Ok st
  else
    result <- handleCreatePool getCompliance (routes st) (poolSelection st) ;;
    Ok {| routes := routes st;
          poolSelection := poolSelection st;
          poolResult := Some result |}.

(** [togglePoolMember]: the next value of [poolSelection]. *)
Definition togglePoolMember (prev : list Z) (id : Z) : list Z :=
  if includes prev id
  then filter (fun x => negb (Z.eqb x id)) prev
  else prev ++ [id].

(** [Math.round]: the nearest integer, halves going up. *)
Definition Math_round (x : number) : Z := Qfloor (x + (1 # 2)).

(** The percentage the [Header] shows. *)
Definition Header_compliance (totalRoutes compliantCount : nat) : Z :=
  if (0 <? totalRoutes)%nat
  then Math_round ((inject_Z (Z.of_nat compliantCount) / inject_Z (Z.of_nat totalRoutes))
                   * 100)
  else 0%Z.

(** [isCompliant] of a table row of the Routes tab. *)
Definition isCompliant (route : Route.t) : bool :=
  num_le (Route.ghgIntensity route) CONSTANTS.GHG_TARGET_2025.

(** The two numbers [App] passes to the [Header]. *)
Definition headerCompliance (routes : list Route.t) : Z :=
  Header_compliance (List.length routes) (List.length (filter isCompliant routes)).


(** [routes.find(r => r.isBaseline)] *)
Definition baselineRoute (routes : list Route.t) : option Route.t :=
  find (fun r => Route.isBaseline r) routes.

Module ComparisonDatum.
Record t : Type := mk {
  name : string;
  ghg : number;
  baseline : number;
  target : number
}.
End ComparisonDatum.

(** The rows of the comparison chart. *)
Definition comparisonData (routes : list Route.t) : list ComparisonDatum.t :=
  match baselineRoute routes with
  | None => []
  | Some baselineRoute =>
      map (fun r =>
             {| ComparisonDatum.name := Route.routeId r;
                ComparisonDatum.ghg := Route.ghgIntensity r;
                ComparisonDatum.baseline := Route.ghgIntensity baselineRoute;
                ComparisonDatum.target := CONSTANTS.GHG_TARGET_2025 |})
          (filter (fun r => negb (Z.eqb (Route.id r) (Route.id baselineRoute))) routes)
  end.

End App.


(** ** The seeded database of [database.sql] *)

Definition seed_routes : list RouteRow.t :=
  [ RouteRow.mk 1 "R001" "Container" "HFO" 2024 91.0 5000 12000 4500 false;
    RouteRow.mk 2 "R002" "BulkCarrier" "LNG" 2024 88.0 4800 11500 4200 false;
    RouteRow.mk 3 "R003" "Tanker" "MGO" 2024 93.5 5100 12500 4700 false;
    RouteRow.mk 4 "R004" "RoRo" "HFO" 2025 89.2 4900 11800 4300 false;
    RouteRow.mk 5 "R005" "Container" "LNG" 2025 90.5 4950 11900 4400 false ].

Definition seed_db : Database :=
  {| routes := seed_routes;
     bank_entries := [];
     bank_entries_id_seq := 1;
     current_timestamp := 1700000000 |}.

(** The seeded routes with a ledger that already holds entries of two
    routes and of several years. *)
Definition ledger_db : Database :=
  {| routes := seed_routes;
     bank_entries :=
       [ BankRow.mk 1 "R002" 2024 banked 1000 1700000001;
         BankRow.mk 2 "R004" 2025 banked 500 1700000002;
         BankRow.mk 3 "R002" 2025 applied 250 1700000003;
         BankRow.mk 4 "R002" 2026 banked 40.5 1700000004 ];
     bank_entries_id_seq := 5;
     current_timestamp := 1700000005 |}.

(** ** Notions the statements are written in *)

(** The schema's [route_id ... UNIQUE] on [routes]. *)
Definition route_id_unique (db : Database) : Prop :=
  NoDup (map RouteRow.route_id (routes db)).

(** The sum of a list of amounts. *)
Definition Qsum (l : list Q) : Q := fold_right Qplus 0 l.

(** The amounts of the ledger rows of one route and one entry type, of
    whatever year. *)
Definition ledger_amounts (ty : EntryType) (routeId : string) (rows : list BankRow.t)
  : list Q :=
  map BankRow.amount_gco2eq
      (filter (fun row => String.eqb (BankRow.route_id row) routeId
                          && EntryType_eqb (BankRow.type row) ty)
              rows).

(** The rows of the ledger that belong to one route. *)
Definition rows_of_route (routeId : string) (rows : list BankRow.t) : list BankRow.t :=
  filter (fun row => String.eqb (BankRow.route_id row) routeId) rows.


(** The database with another ledger. *)
Definition with_ledger (db : Database) (rows : list BankRow.t) : Database :=
  {| routes := routes db;
     bank_entries := rows;
     bank_entries_id_seq := bank_entries_id_seq db;
     current_timestamp := current_timestamp db |}.

(** The message of the error [bankSurplus] throws for a balance that is
    not a surplus (the spec's [NegativeBalanceError]). *)
Definition NegativeBalanceError : string := "Cannot bank negative compliance balance".

(** The members [handleCreatePool] aggregates: the routes whose [id] is
    selected, in the order of the route list, each with the compliance
    result the API gave for its route identifier. *)
Definition poolMembers
           (getCompliance : string -> Result ComplianceResult.t)
           (routes : list Route.t) (poolSelection : list Z)
  : Result (list App.Member.t) :=
  mapM (fun r =>
          comp <- getCompliance (Route.routeId r) ;;
          Ok (App.Member.mk r comp))
       (filter (fun r => App.includes poolSelection (Route.id r)) routes).

(** An API backed by [calculateCB] on a database, asked for one year. *)
Definition backend_api (db : Database) (year : Z) (routeId : string)
  : Result ComplianceResult.t :=
  ComplianceService.calculateCB db routeId year.

(** The route list the frontend holds for a database ([GET /routes]
    without the ordering). *)
Definition routes_of (db : Database) : list Route.t :=
  map PostgresRouteAdapter.mapRowToRoute (routes db).

(** An API that answers with fixed balances: +5,000,000 for R001 and
    -2,000,000 for R002, nothing banked. *)
Definition fixed_api (routeId : string) : Result ComplianceResult.t :=
  if String.eqb routeId "R001" then Ok (ComplianceResult.mk 5000000 0 5000000)
  else if String.eqb routeId "R002" then Ok (ComplianceResult.mk (-2000000) 0 (-2000000))
  else Throw "Route not found".

(** The Calculator applies the yearly schedule [target] when the raw
    balance of every stored route is computed from the target of that
    route's own year. *)
Definition applies_yearly_target (target : Z -> Q) : Prop :=
  forall (db : Database) (routeId : string) (year : Z) (route : Route.t),
    PostgresRouteAdapter.findByRouteId db routeId = Some route ->
    exists result,
      ComplianceService.calculateCB db routeId year = Ok result
      /\ ComplianceResult.cb result
         == (target (Route.year route) - Route.ghgIntensity route)
            * (Route.fuelConsumption route * CONSTANTS.LCV).

(** The schema's [id SERIAL PRIMARY KEY] on [routes]. *)
Definition routes_id_unique (db : Database) : Prop :=
  NoDup (map RouteRow.id (routes db)).

(** The rows of a routes table that carry the baseline flag in one year. *)
Definition baselines_of_year (year : Z) (rows : list RouteRow.t) : list RouteRow.t :=
  filter (fun row => RouteRow.is_baseline row && Z.eqb (RouteRow.year row) year) rows.

(** At most one route of each year carries the baseline flag. *)
Definition one_baseline_per_year (db : Database) : Prop :=
  forall year : Z, (List.length (baselines_of_year year (routes db)) <= 1)%nat.

(** Every identifier of the ledger is below the next value of the
    sequence, and no two rows share one. *)
Definition ledger_ids_fresh (db : Database) : Prop :=
  Forall (fun row => (BankRow.id row < bank_entries_id_seq db)%Z) (bank_entries db)
  /\ NoDup (map BankRow.id (bank_entries db)).

(** Every row of the ledger is a [banked] entry of a strictly positive
    amount for a route of the [routes] table. *)
Definition ledger_well_formed (db : Database) : Prop :=
  Forall (fun row =>
            BankRow.type row = banked
            /\ 0 < BankRow.amount_gco2eq row
            /\ In (BankRow.route_id row) (map RouteRow.route_id (routes db)))
         (bank_entries db).

(** The two mutating calls of the backend. *)
Inductive Call : Type :=
| CallBankSurplus (routeId : string) (year : Z)
| CallSetBaseline (id : Z).

(** The database after one call, whether it succeeds or throws. *)
Definition perform (db : Database) (call : Call) : Database :=
  match call with
  | CallBankSurplus routeId year => snd (ComplianceService.bankSurplus db routeId year)
  | CallSetBaseline id => snd (PostgresRouteAdapter.setBaseline db id)
  end.

(** The database after a sequence of calls. *)
Definition perform_all (db : Database) (calls : list Call) : Database :=
  fold_left perform calls db.

(** The two updates of [setBaseline] as one pass over the table. *)
Definition rebaseline (id year : Z) (row : RouteRow.t) : RouteRow.t :=
  if Z.eqb (RouteRow.year row) year
  then PostgresRouteAdapter.set_is_baseline (Z.eqb (RouteRow.id row) id) row
  else row.

(** The raw balance, or the failure, of every route is the same in two
    databases. *)
Definition same_raw_balances (db db' : Database) : Prop :=
  forall (routeId : string) (year : Z),
    match ComplianceService.calculateCB db routeId year,
          ComplianceService.calculateCB db' routeId year with
    | Ok status, Ok status' => ComplianceResult.cb status' = ComplianceResult.cb status
    | Throw e, Throw e' => e' = e
    | _, _ => False
    end.

(** * The code as executed

    Everything above reads a [number] as an exact decimal and a column as a
    plain value.  The modules below embed the same functions with the
    arithmetic and the column types the running system has: a [number] is
    an IEEE 754 binary64 value, computed with round-to-nearest-even; a
    DECIMAL column returns its value as decimal text that [parseFloat]
    rounds to the nearest binary64; an INT parameter and a DECIMAL(15,2)
    cell accept only what fits them. *)

(** ** JavaScript numbers *)

Module Binary64.

Definition t : Type := spec_float.

Definition prec : Z := 53.
Definition emax : Z := 1024.

(** [+0] *)
Definition zero : t := S754_zero false.

Definition add (x y : t) : t := SFadd prec emax x y.
Definition sub (x y : t) : t := SFsub prec emax x y.
Definition mul (x y : t) : t := SFmul prec emax x y.

(** [x <= y], [x >= y], [x < y]: false as soon as one side is NaN. *)
Definition le (x y : t) : bool := SFleb x y.
Definition ge (x y : t) : bool := SFleb y x.
Definition lt (x y : t) : bool := SFltb x y.

Definition isNaN (x : t) : bool :=
  match x with
  | S754_nan => true
  | _ => false
  end.

(** The binary64 value nearest to a rational: what a decimal literal of the
    source and [parseFloat] of a decimal text denote.  The quotient of the
    two integers is rounded once. *)
Definition of_Q (q : Q) : t :=
  match Qnum q with
  | Z0 => zero
  | Zpos p => SFdiv prec emax (S754_finite false p 0) (S754_finite false (Qden q) 0)
  | Zneg p => SFdiv prec emax (S754_finite true p 0) (S754_finite false (Qden q) 0)
  end.

(** The same binary64 datum. *)
Definition same (x y : t) : bool :=
  match x, y with
  | S754_zero a, S754_zero b => Bool.eqb a b
  | S754_infinity a, S754_infinity b => Bool.eqb a b
  | S754_nan, S754_nan => true
  | S754_finite a m e, S754_finite b n f => Bool.eqb a b && Pos.eqb m n && Z.eqb e f
  | _, _ => false
  end.

(** The rational a finite value stands for. *)
Definition to_Q (x : t) : option Q :=
  match x with
  | S754_zero _ => Some 0
  | S754_finite s m e =>
      Some ((if s then - inject_Z (Zpos m) else inject_Z (Zpos m)) * Qpower 2 e)
  | _ => None
  end.

(** *** [Number::toString]: the shortest decimal that reads back *)

Definition pow10 (n : Z) : Q := Qpower 10 n.

(** The [n] with [10^(n-1) <= v < 10^n], from an estimate. *)
Fixpoint adjust (fuel : nat) (v : Q) (n : Z) : Z :=
  match fuel with
  | O => n
  | S k =>
      if Qle_bool (pow10 n) v then adjust k v (n + 1)
      else if Qle_bool (pow10 (n - 1)) v then n
           else adjust k v (n - 1)
  end.

Definition decimal_exponent (m : positive) (e : Z) : Z :=
  adjust 8 (inject_Z (Zpos m) * Qpower 2 e)
         (((Zpos (digits2_pos m) + e) * 30103) / 100000).

(** The decimal of [k] digits that reads back as [x], if there is one: of
    two, the one nearer to the value [v] of [x], the even one on a tie. *)
Definition candidate (x : t) (v : Q) (n k : Z) : option Q :=
  let u := pow10 (n - k) in
  let s := Qfloor (v / u) in
  let lo := inject_Z s * u in
  let hi := inject_Z (s + 1) * u in
  match same (of_Q lo) x, same (of_Q hi) x with
  | true, false => Some lo
  | false, true => Some hi
  | true, true =>
      match Qcompare (v - lo) (hi - v) with
      | Lt => Some lo
      | Gt => Some hi
      | Eq => if Z.even s then Some lo else Some hi
      end
  | false, false => None
  end.

Fixpoint shortest (x : t) (v : Q) (n : Z) (ks : list Z) : Q :=
  match ks with
  | [] => v
  | k :: rest =>
      match candidate x v n k with
      | Some d => d
      | None => shortest x v n rest
      end
  end.

(** The rational that the text [String(x)] denotes, for a finite [x]. *)
Definition toDecimal (x : t) : option Q :=
  match x with
  | S754_zero _ => Some 0
  | S754_finite s m e =>
      let v := inject_Z (Zpos m) * Qpower 2 e in
      let d := shortest (S754_finite false m e) v (decimal_exponent m e)
                        [1; 2; 3; 4; 5; 6; 7; 8; 9; 10; 11; 12; 13; 14; 15; 16; 17]%Z in
      Some (if s then - d else d)
  | _ => None
  end.

(** The running sum [arr.reduce((sum, x) => sum + x, 0)]. *)
Definition sum (arr : list t) : t := fold_left add arr zero.

(** The data of the format: the mantissa and the exponent of a finite value
    are those of its canonical representation, within the exponent range. *)
Definition valid (x : t) : bool := valid_binary prec emax x.

(** A value other than NaN. *)
Definition isNumber (x : t) : bool := valid x && negb (isNaN x).

End Binary64.

(** ** Failure: a thrown [Error] or an error of the database *)

Inductive Exception : Type :=
| Error (message : string)
| DatabaseError (sqlstate : string).

Inductive Completion (A : Type) : Type :=
| Normal (value : A)
| Abrupt (e : Exception).
Arguments Normal {A} value.
Arguments Abrupt {A} e.

Definition andThen {A B : Type} (c : Completion A) (k : A -> Completion B)
  : Completion B :=
  match c with
  | Normal a => k a
  | Abrupt e => Abrupt e
  end.

Notation "x <~ c ;; k" := (andThen c (fun x => k))
  (at level 61, c at next level, right associativity).

Fixpoint awaitAll {A B : Type} (f : A -> Completion B) (arr : list A)
  : Completion (list B) :=
  match arr with
  | [] => Normal []
  | x :: rest =>
      y <~ f x ;;
      ys <~ awaitAll f rest ;;
      Normal (y :: ys)
  end.

(** ** Column types of PostgreSQL *)

Module Pg.

Definition numeric_value_out_of_range : string := "22003".
Definition invalid_text_representation : string := "22P02".
Definition string_data_right_truncation : string := "22001".
Definition unique_violation : string := "23505".
Definition foreign_key_violation : string := "23503".

Definition int4 (z : Z) : bool :=
  (-2147483648 <=? z)%Z && (z <=? 2147483647)%Z.

(** An integer-valued [number] bound to an INT parameter.  The driver sends
    [String(number)]; from 1e21 on that text is in exponent notation, which
    is no integer syntax. *)
Definition bind_int4 (z : Z) : Completion Z :=
  if int4 z then Normal z
  else if (Z.abs z <? 1000000000000000000000)%Z
       then Abrupt (DatabaseError numeric_value_out_of_range)
       else Abrupt (DatabaseError invalid_text_representation).

(** A cell of a DECIMAL(15,2) column: NaN, or a number of hundredths of
    fewer than 15 digits. *)
Inductive numeric : Type :=
| NaN
| Hundredths (unscaled : Z).

(** Rounding to an integer, halves away from zero. *)
Definition round_half_away (q : Q) : Z :=
  if Qle_bool 0 q then Qfloor (q + (1 # 2)) else (- Qfloor (- q + (1 # 2)))%Z.

(** A [number] stored into a DECIMAL(15,2) column: the decimal of
    [String(number)] rounded to two places; NaN is stored as NaN; an
    infinity, or a rounded value of 10^13 or more, overflows the field. *)
Definition numeric_15_2 (x : Binary64.t) : Completion numeric :=
  match x with
  | S754_nan => Normal NaN
  | S754_infinity _ => Abrupt (DatabaseError numeric_value_out_of_range)
  | _ =>
      match Binary64.toDecimal x with
      | None => Abrupt (DatabaseError numeric_value_out_of_range)
      | Some d =>
          let unscaled := round_half_away (d * 100) in
          if (Z.abs unscaled <? 1000000000000000)%Z
          then Normal (Hundredths unscaled)
          else Abrupt (DatabaseError numeric_value_out_of_range)
      end
  end.

(** [parseFloat] of the text of a DECIMAL(15,2) cell. *)
Definition parseFloat_numeric (n : numeric) : Binary64.t :=
  match n with
  | NaN => S754_nan
  | Hundredths unscaled => Binary64.of_Q (unscaled # 100)
  end.

Definition is_space (c : Ascii.ascii) : bool := Ascii.eqb c " "%char.

Fixpoint all_spaces (s : string) : bool :=
  match s with
  | EmptyString => true
  | String c rest => is_space c && all_spaces rest
  end.

(** A text stored into a VARCHAR(n) column: too long a text is an error,
    unless the excess is all spaces, which are cut off. *)
Definition varchar (n : nat) (s : string) : Completion string :=
  if (String.length s <=? n)%nat then Normal s
  else if all_spaces (String.substring n (String.length s - n) s)
       then Normal (String.substring 0 n s)
       else Abrupt (DatabaseError string_data_right_truncation).

End Pg.

(** ** The backend and the pooling tab, as executed *)

Module Exec.

Module Route.
Record t : Type := mk {
  id : Z;
  routeId : string;
  vesselType : string;
  fuelType : string;
  year : Z;
  ghgIntensity : Binary64.t;
  fuelConsumption : Binary64.t;
  distance : Binary64.t;
  totalEmissions : Binary64.t;
  isBaseline : bool
}.
End Route.

Module BankEntry.
Record t : Type := mk {
  id : option Z;
  routeId : string;
  year : Z;
  type : EntryType;
  amount : Binary64.t;
  createdAt : option Z
}.
End BankEntry.

Module ComplianceResult.
Record t : Type := mk {
  cb : Binary64.t;
  banked : Binary64.t;
  adjustedCB : Binary64.t
}.
End ComplianceResult.

Module CONSTANTS.
Definition GHG_TARGET_2025 : Binary64.t := Binary64.of_Q 89.3368.
Definition LCV : Binary64.t := Binary64.of_Q 41000.
End CONSTANTS.

(** A row of [bank_entries]; the amount is a DECIMAL(15,2) cell. *)
Module BankRow.
Record t : Type := mk {
  id : Z;
  route_id : string;
  year : Z;
  type : EntryType;
  amount_gco2eq : Pg.numeric;
  created_at : Z
}.
End BankRow.

(** The database: the rows of [routes] as above, the ledger, the SERIAL
    sequence of [bank_entries.id] and the value of CURRENT_TIMESTAMP. *)
Record Database : Type := mkDatabase {
  routes : list RouteRow.t;
  bank_entries : list BankRow.t;
  bank_entries_id_seq : Z;
  current_timestamp : Z
}.

Definition with_routes (db : Database) (rows : list RouteRow.t) : Database :=
  {| routes := rows;
     bank_entries := bank_entries db;
     bank_entries_id_seq := bank_entries_id_seq db;
     current_timestamp := current_timestamp db |}.

(** The database after [nextval] on the sequence of [bank_entries.id]. *)
Definition after_nextval (db : Database) : Database :=
  {| routes := routes db;
     bank_entries := bank_entries db;
     bank_entries_id_seq := (bank_entries_id_seq db + 1)%Z;
     current_timestamp := current_timestamp db |}.

(** A row after [UPDATE routes SET is_baseline = v]. *)
Definition set_is_baseline (v : bool) (row : RouteRow.t) : RouteRow.t :=
  {| RouteRow.id := RouteRow.id row;
     RouteRow.route_id := RouteRow.route_id row;
     RouteRow.vessel_type := RouteRow.vessel_type row;
     RouteRow.fuel_type := RouteRow.fuel_type row;
     RouteRow.year := RouteRow.year row;
     RouteRow.ghg_intensity := RouteRow.ghg_intensity row;
     RouteRow.fuel_consumption := RouteRow.fuel_consumption row;
     RouteRow.distance := RouteRow.distance row;
     RouteRow.total_emissions := RouteRow.total_emissions row;
     RouteRow.is_baseline := v |}.

(** [arr.includes(x)] on identifiers. *)
Definition includes (arr : list Z) (x : Z) : bool := existsb (Z.eqb x) arr.

Module PostgresRouteAdapter.

Definition mapRowToRoute (row : RouteRow.t) : Route.t :=
  {| Route.id := RouteRow.id row;
     Route.routeId := RouteRow.route_id row;
     Route.vesselType := RouteRow.vessel_type row;
     Route.fuelType := RouteRow.fuel_type row;
     Route.year := RouteRow.year row;
     Route.ghgIntensity := Binary64.of_Q (RouteRow.ghg_intensity row);
     Route.fuelConsumption := Binary64.of_Q (RouteRow.fuel_consumption row);
     Route.distance := Binary64.of_Q (RouteRow.distance row);
     Route.totalEmissions := Binary64.of_Q (RouteRow.total_emissions row);
     Route.isBaseline := RouteRow.is_baseline row |}.

Definition findByRouteId (db : Database) (id : string) : option Route.t :=
  match filter (fun row => String.eqb (RouteRow.route_id row) id) (routes db) with
  | [] => None
  | row :: _ => Some (mapRowToRoute row)
  end.

(** The transaction of [setBaseline]; [id] is bound to an INT parameter by
    the first query, and any error rolls the transaction back and is thrown
    again. *)
Definition setBaseline (db : Database) (id : Z) : Completion unit * Database :=
  match Pg.bind_int4 id with
  | Abrupt e => (Abrupt e, db)
  | Normal id =>
      match filter (fun row => Z.eqb (RouteRow.id row) id) (routes db) with
      | [] => (Abrupt (Error "Route not found"), db)
      | routeRes :: _ =>
          let year := RouteRow.year routeRes in
          let cleared :=
            map (fun row => if Z.eqb (RouteRow.year row) year
                            then set_is_baseline false row
                            else row)
                (routes db) in
          let flagged :=
            map (fun row => if Z.eqb (RouteRow.id row) id
                            then set_is_baseline true row
                            else row)
                cleared in
          (Normal tt, with_routes db flagged)
      end
  end.

(** [year] is bound to an INT parameter. *)
Definition getBaseline (db : Database) (year : Z) : Completion (option Route.t) :=
  year <~ Pg.bind_int4 year ;;
  match filter (fun row => RouteRow.is_baseline row && Z.eqb (RouteRow.year row) year)
               (routes db) with
  | [] => Normal None
  | row :: _ => Normal (Some (mapRowToRoute row))
  end.

End PostgresRouteAdapter.

Module PostgresBankingAdapter.

Definition mapRow (row : BankRow.t) : BankEntry.t :=
  {| BankEntry.id := Some (BankRow.id row);
     BankEntry.routeId := BankRow.route_id row;
     BankEntry.year := BankRow.year row;
     BankEntry.type := BankRow.type row;
     BankEntry.amount := Pg.parseFloat_numeric (BankRow.amount_gco2eq row);
     BankEntry.createdAt := Some (BankRow.created_at row) |}.

Definition findByRouteId (db : Database) (id : string) : list BankEntry.t :=
  map mapRow
      (filter (fun row => String.eqb (BankRow.route_id row) id) (bank_entries db)).

(** The INSERT of [save].  [year] is bound to an INT parameter before the
    statement runs.  The statement takes the next [id] from the sequence,
    which keeps that step even when the statement fails afterwards; fits
    [route_id] into VARCHAR(50) and the amount into DECIMAL(15,2); and is
    refused when the [id] is that of a row (primary key) or the route is
    not in [routes] (foreign key).  Otherwise the row is appended and
    returned. *)
Definition save (db : Database) (entry : BankEntry.t)
  : Completion BankRow.t * Database :=
  match Pg.bind_int4 (BankEntry.year entry) with
  | Abrupt e => (Abrupt e, db)
  | Normal year =>
      let id := bank_entries_id_seq db in
      let db1 := after_nextval db in
      match Pg.varchar 50 (BankEntry.routeId entry) with
      | Abrupt e => (Abrupt e, db1)
      | Normal route_id =>
          match Pg.numeric_15_2 (BankEntry.amount entry) with
          | Abrupt e => (Abrupt e, db1)
          | Normal amount =>
              if existsb (fun row => Z.eqb (BankRow.id row) id) (bank_entries db)
              then (Abrupt (DatabaseError Pg.unique_violation), db1)
              else if negb (existsb (fun r => String.eqb (RouteRow.route_id r) route_id)
                                    (routes db))
                   then (Abrupt (DatabaseError Pg.foreign_key_violation), db1)
                   else
                     let row :=
                       {| BankRow.id := id;
                          BankRow.route_id := route_id;
                          BankRow.year := year;
                          BankRow.type := BankEntry.type entry;
                          BankRow.amount_gco2eq := amount;
                          BankRow.created_at := current_timestamp db |} in
                     (Normal row,
                      {| routes := routes db;
                         bank_entries := bank_entries db ++ [row];
                         bank_entries_id_seq := (bank_entries_id_seq db + 1)%Z;
                         current_timestamp := current_timestamp db |})
          end
      end
  end.

End PostgresBankingAdapter.

Module ComplianceService.

Definition calculateCB (db : Database) (routeId : string) (year : Z)
  : Completion ComplianceResult.t :=
  match PostgresRouteAdapter.findByRouteId db routeId with
  | None => Abrupt (Error "Route not found")
  | Some route =>
      (* Core Formula: CB = (Target - Actual) * Energy *)
      let energyInScope := Binary64.mul (Route.fuelConsumption route) CONSTANTS.LCV in
      let cb :=
        Binary64.mul (Binary64.sub CONSTANTS.GHG_TARGET_2025 (Route.ghgIntensity route))
                     energyInScope in
      let bankEntries := PostgresBankingAdapter.findByRouteId db routeId in
      let bankedSum :=
        reduce (fun sum e => Binary64.add sum (BankEntry.amount e)) Binary64.zero
               (filter (fun e => EntryType_eqb (BankEntry.type e) banked) bankEntries) in
      let appliedSum :=
        reduce (fun sum e => Binary64.add sum (BankEntry.amount e)) Binary64.zero
               (filter (fun e => EntryType_eqb (BankEntry.type e) applied) bankEntries) in
      let netBanked := Binary64.sub bankedSum appliedSum in
      Normal {| ComplianceResult.cb := cb;
                ComplianceResult.banked := netBanked;
                ComplianceResult.adjustedCB := Binary64.add cb netBanked |}
  end.

Definition bankSurplus (db : Database) (routeId : string) (year : Z)
  : Completion BankRow.t * Database :=
  match calculateCB db routeId year with
  | Abrupt e => (Abrupt e, db)
  | Normal status =>
      if Binary64.le (ComplianceResult.cb status) Binary64.zero
      then (Abrupt (Error "Cannot bank negative compliance balance"), db)
      else
        let entry :=
          {| BankEntry.id := None;
             BankEntry.routeId := routeId;
             BankEntry.year := year;
             BankEntry.type := banked;
             BankEntry.amount := ComplianceResult.cb status;
             BankEntry.createdAt := None |} in
        PostgresBankingAdapter.save db entry
  end.

End ComplianceService.

Module App.

Module Member.
Record t : Type := mk {
  route : Route.t;
  comp : ComplianceResult.t
}.
Definition routeId (m : t) : string := Route.routeId (route m).
Definition adjustedCB (m : t) : Binary64.t := ComplianceResult.adjustedCB (comp m).
End Member.

Module Allocation.
Record t : Type := mk {
  id : string;
  before : Binary64.t;
  after : Binary64.t
}.
End Allocation.

Module PoolResult.
Record t : Type := mk {
  totalCB : Binary64.t;
  results : list Allocation.t;
  valid : bool
}.
End PoolResult.

(** What [sort] makes of the value of [comparefn]: NaN counts as [+0]. *)
Definition SortCompare {A : Type} (comparefn : A -> A -> Binary64.t) (a b : A)
  : Binary64.t :=
  let v := comparefn a b in
  if Binary64.isNaN v then Binary64.zero else v.

(** [Array.prototype.sort(comparefn)], stable, by insertion from the
    right. *)
Fixpoint insert {A : Type} (comparefn : A -> A -> Binary64.t) (a : A) (sorted : list A)
  : list A :=
  match sorted with
  | [] => [a]
  | b :: rest =>
      if Binary64.le (SortCompare comparefn a b) Binary64.zero
      then a :: b :: rest
      else b :: insert comparefn a rest
  end.

Definition sort {A : Type} (comparefn : A -> A -> Binary64.t) (arr : list A) : list A :=
  fold_right (insert comparefn) [] arr.

Definition handleCreatePool
           (getCompliance : string -> Completion ComplianceResult.t)
           (routes : list Route.t) (poolSelection : list Z)
  : Completion PoolResult.t :=
  let selectedRoutes := filter (fun r => includes poolSelection (Route.id r)) routes in
  members <~ awaitAll (fun r =>
                         comp <~ getCompliance (Route.routeId r) ;;
                         Normal (Member.mk r comp))
                      selectedRoutes ;;
  let totalCB :=
    reduce (fun acc cur => Binary64.add acc (Member.adjustedCB cur)) Binary64.zero
           members in
  (* Greedy allocation for demo *)
  let sorted :=
    sort (fun a b => Binary64.sub (Member.adjustedCB b) (Member.adjustedCB a)) members in
  let results :=
    map (fun m =>
           {| Allocation.id := Member.routeId m;
              Allocation.before := Member.adjustedCB m;
              Allocation.after :=
                if Binary64.ge totalCB Binary64.zero
                then (if Binary64.lt (Member.adjustedCB m) Binary64.zero
                      then Binary64.zero else Member.adjustedCB m)
                else Member.adjustedCB m |})
        sorted in
  Normal {| PoolResult.totalCB := totalCB;
            PoolResult.results := results;
            PoolResult.valid := Binary64.ge totalCB Binary64.zero |}.

End App.

(** The seeded database. *)
Definition seed_db : Database :=
  {| routes := seed_routes;
     bank_entries := [];
     bank_entries_id_seq := 1;
     current_timestamp := 1700000000 |}.


(** *** Notions the statements on the executed code are written in *)

(** The schema's [route_id ... UNIQUE] on [routes]. *)
Definition route_id_unique (db : Database) : Prop :=
  NoDup (map RouteRow.route_id (routes db)).

(** The amounts, as [parseFloat] reads them, of the ledger rows of one route
    and one entry type, in the order of the ledger. *)
Definition ledger_amounts (ty : EntryType) (routeId : string) (rows : list BankRow.t)
  : list Binary64.t :=
  map (fun row => Pg.parseFloat_numeric (BankRow.amount_gco2eq row))
      (filter (fun row => String.eqb (BankRow.route_id row) routeId
                          && EntryType_eqb (BankRow.type row) ty)
              rows).





(** The members [handleCreatePool] aggregates. *)
Definition poolMembers
           (getCompliance : string -> Completion ComplianceResult.t)
           (routes : list Route.t) (poolSelection : list Z)
  : Completion (list App.Member.t) :=
  awaitAll (fun r =>
              comp <~ getCompliance (Route.routeId r) ;;
              Normal (App.Member.mk r comp))
           (filter (fun r => includes poolSelection (Route.id r)) routes).

(** Descending order of a [Binary64] key. *)
Definition descending_by {A : Type} (key : A -> Binary64.t) (a b : A) : Prop :=
  Binary64.le (key b) (key a) = true.

(** The route list the frontend holds for a database. *)
Definition routes_of (db : Database) : list Route.t :=
  map PostgresRouteAdapter.mapRowToRoute (routes db).

(** At most one route of each year carries the baseline flag. *)
Definition one_baseline_per_year (db : Database) : Prop :=
  forall year : Z, (List.length (baselines_of_year year (routes db)) <= 1)%nat.

(** A compliance result with nothing banked. *)
Definition unbanked (q : Q) : ComplianceResult.t :=
  ComplianceResult.mk (Binary64.of_Q q) Binary64.zero (Binary64.of_Q q).

(** An API that answers -2,000,000 for R001 and +5,000,000 for R002. *)
Definition fixed_api (routeId : string) : Completion ComplianceResult.t :=
  if String.eqb routeId "R001" then Normal (unbanked (-2000000))
  else if String.eqb routeId "R002" then Normal (unbanked 5000000)
  else Abrupt (Error "Route not found").

(** An API that answers 10^16 for R001, -1 for R002 and -10^16 for R003. *)
Definition cancelling_api (routeId : string) : Completion ComplianceResult.t :=
  if String.eqb routeId "R001" then Normal (unbanked 10000000000000000)
  else if String.eqb routeId "R002" then Normal (unbanked (-1))
  else if String.eqb routeId "R003" then Normal (unbanked (-10000000000000000))
  else Abrupt (Error "Route not found").

(** An API that answers -0.1 for R001, -0.2 for R002 and 0.3 for R003. *)
Definition tenths_api (routeId : string) : Completion ComplianceResult.t :=
  if String.eqb routeId "R001" then Normal (unbanked (-0.1))
  else if String.eqb routeId "R002" then Normal (unbanked (-0.2))
  else if String.eqb routeId "R003" then Normal (unbanked 0.3)
  else Abrupt (Error "Route not found").

(** A route just below the target with a hundredth of a tonne of fuel, and
    a route of no GHG intensity with five million tonnes. *)
Definition edge_db : Database :=
  {| routes :=
       [ RouteRow.mk 1 "E001" "Tanker" "MGO" 2025 89.3367 0.01 10 1 false;
         RouteRow.mk 2 "E002" "Tanker" "MGO" 2025 0 5000000 10 1 false ];
     bank_entries := [];
     bank_entries_id_seq := 1;
     current_timestamp := 1700000000 |}.

(** Two routes with the same metrics, one of 2024 and one of 2030. *)
Definition two_year_db : Database :=
  {| routes :=
       [ RouteRow.mk 1 "V24" "Tanker" "MGO" 2024 88.0 4800 11500 4200 false;
         RouteRow.mk 2 "V30" "Tanker" "MGO" 2030 88.0 4800 11500 4200 false ];
     bank_entries := [];
     bank_entries_id_seq := 1;
     current_timestamp := 1700000000 |}.

End Exec.


(** Where a value stands in the order: its class, then exponent and
    mantissa, reversed for negative values. *)
Definition order_key (x : Binary64.t) : option (Z * Z * Z) :=
  match x with
  | S754_nan => None
  | S754_infinity true => Some (-2, 0, 0)%Z
  | S754_finite true m e => Some (-1, - e, - Zpos m)%Z
  | S754_zero _ => Some (0, 0, 0)%Z
  | S754_finite false m e => Some (1, e, Zpos m)%Z
  | S754_infinity false => Some (2, 0, 0)%Z
  end.

Definition key_le (a b : Z * Z * Z) : Prop :=
  let '(c1, e1, m1) := a in
  let '(c2, e2, m2) := b in
  (c1 < c2 \/ (c1 = c2 /\ (e1 < e2 \/ (e1 = e2 /\ m1 <= m2))))%Z.

(** ** The Calculator *)





(** C10.  The year argument of [calculateCB] has no influence: on one
    database, any two years give the same outcome, result or failure. *)
Theorem calculateCB_year_irrelevant
        (db : Database) (routeId : string) (y1 y2 : Z) :
  ComplianceService.calculateCB db routeId y1
  = ComplianceService.calculateCB db routeId y2.
Proof. reflexivity. Qed.


(** *** Net banked amount *)

Lemma reduce_sum {A : Type} (f : A -> Q) (l : list A) (init : Q) :
  reduce (fun sum e => sum + f e) init l == init + Qsum (map f l).
Proof.
  unfold reduce. revert init.
  induction l as [|x l IH]; intro init; simpl.
  - ring.
  - rewrite IH. ring.
Qed.

Lemma entries_of_type_amounts (ty : EntryType) (routeId : string) (rows : list BankRow.t) :
  map (fun e => Number (BankEntry.amount e))
      (filter (fun e => EntryType_eqb (BankEntry.type e) ty)
              (map PostgresBankingAdapter.mapRow (rows_of_route routeId rows)))
  = ledger_amounts ty routeId rows.
Proof.
  unfold ledger_amounts, rows_of_route.
  induction rows as [|row rows IH]; simpl; [reflexivity|].
  destruct (String.eqb (BankRow.route_id row) routeId); simpl; [|exact IH].
  destruct (EntryType_eqb (BankRow.type row) ty); simpl; [f_equal|]; exact IH.
Qed.

(** What [calculateCB] returns, written with the route's rows only. *)
Lemma calculateCB_unfold (db : Database) (routeId : string) (year : Z) :
  ComplianceService.calculateCB db routeId year
  = match PostgresRouteAdapter.findByRouteId db routeId with
    | None => Throw "Route not found"
    | Some route =>
        let cb := (CONSTANTS.GHG_TARGET_2025 - Route.ghgIntensity route)
                  * (Route.fuelConsumption route * CONSTANTS.LCV) in
        let entries :=
          map PostgresBankingAdapter.mapRow (rows_of_route routeId (bank_entries db)) in
        let sumOf ty :=
          reduce (fun sum e => sum + Number (BankEntry.amount e)) 0
                 (filter (fun e => EntryType_eqb (BankEntry.type e) ty) entries) in
        Ok {| ComplianceResult.cb := cb;
              ComplianceResult.banked := sumOf banked - sumOf applied;
              ComplianceResult.adjustedCB := cb + (sumOf banked - sumOf applied) |}
    end.
Proof. reflexivity. Qed.

Lemma net_banked_is_ledger_sum
      (db : Database) (routeId : string) (year : Z) (result : ComplianceResult.t) :
  ComplianceService.calculateCB db routeId year = Ok result ->
  ComplianceResult.banked result
  == Qsum (ledger_amounts banked routeId (bank_entries db))
     - Qsum (ledger_amounts applied routeId (bank_entries db)).
Proof.
  rewrite calculateCB_unfold.
  destruct (PostgresRouteAdapter.findByRouteId db routeId); [|discriminate].
  intros [= <-]; simpl.
  rewrite !reduce_sum, !entries_of_type_amounts. ring.
Qed.





(** ** The Banking Policy *)

Lemma num_le_iff (x y : number) : num_le x y = true <-> x <= y.
Proof. unfold num_le. apply Qle_bool_iff. Qed.

Lemma num_le_false_iff (x y : number) : num_le x y = false <-> y < x.
Proof.
  rewrite <- not_true_iff_false, num_le_iff. split.
  - apply Qnot_le_lt.
  - apply Qlt_not_le.
Qed.

Lemma calculateCB_with_ledger_cb
      (db : Database) (rows' : list BankRow.t) (routeId : string) (year : Z) :
  match ComplianceService.calculateCB db routeId year,
        ComplianceService.calculateCB (with_ledger db rows') routeId year with
  | Ok status, Ok status' => ComplianceResult.cb status' = ComplianceResult.cb status
  | Throw e, Throw e' => e' = e
  | _, _ => False
  end.
Proof.
  rewrite !calculateCB_unfold.
  change (PostgresRouteAdapter.findByRouteId (with_ledger db rows') routeId)
    with (PostgresRouteAdapter.findByRouteId db routeId).
  destruct (PostgresRouteAdapter.findByRouteId db routeId); reflexivity.
Qed.

Lemma bankSurplus_negative_iff (db : Database) (routeId : string) (year : Z) :
  fst (ComplianceService.bankSurplus db routeId year) = Throw NegativeBalanceError
  <-> exists status,
      ComplianceService.calculateCB db routeId year = Ok status
      /\ ComplianceResult.cb status <= 0.
Proof.
  unfold ComplianceService.bankSurplus.
  destruct (ComplianceService.calculateCB db routeId year) as [status|e] eqn:E.
  - destruct (num_le (ComplianceResult.cb status) 0) eqn:Hle; simpl.
    + split; [|reflexivity]. intros _. exists status.
      split; [reflexivity|]. now apply num_le_iff.
    + split; [discriminate|]. intros (status' & [= <-] & Hcb).
      apply num_le_iff in Hcb. congruence.
  - simpl. split.
    + intros [= ->]. unfold ComplianceService.calculateCB in E.
      destruct (PostgresRouteAdapter.findByRouteId db routeId); discriminate.
    + intros (status & Hs & _). discriminate.
Qed.

(** C4.  [bankSurplus] fails with the negative-balance error exactly when
    the raw balance that [calculateCB] recomputes is at most 0; whenever it
    fails the database, and so the ledger, is as before; and the decision
    does not look at the ledger, hence not at the adjusted balance: with any
    other ledger the same call is refused or accepted alike. *)
Theorem bankSurplus_refuses_iff_raw_not_positive
        (db : Database) (routeId : string) (year : Z) :
  (fst (ComplianceService.bankSurplus db routeId year) = Throw NegativeBalanceError
   <-> exists status,
       ComplianceService.calculateCB db routeId year = Ok status
       /\ ComplianceResult.cb status <= 0)
  /\ (forall e : string,
         fst (ComplianceService.bankSurplus db routeId year) = Throw e ->
         snd (ComplianceService.bankSurplus db routeId year) = db)
  /\ (forall rows' : list BankRow.t,
         fst (ComplianceService.bankSurplus (with_ledger db rows') routeId year)
         = Throw NegativeBalanceError
         <-> fst (ComplianceService.bankSurplus db routeId year)
             = Throw NegativeBalanceError).
Proof.
  split; [apply bankSurplus_negative_iff|].
  split.
  - intros e. unfold ComplianceService.bankSurplus.
    destruct (ComplianceService.calculateCB db routeId year) as [status|e'];
      [|reflexivity].
    destruct (num_le (ComplianceResult.cb status) 0); [reflexivity|].
    simpl. discriminate.
  - intros rows'. rewrite !bankSurplus_negative_iff.
    pose proof (calculateCB_with_ledger_cb db rows' routeId year) as H.
    destruct (ComplianceService.calculateCB db routeId year) as [s|e];
      destruct (ComplianceService.calculateCB (with_ledger db rows') routeId year)
      as [s'|e']; try contradiction.
    + split; intros (st & [= <-] & Hcb); eexists; (split; [reflexivity|]);
        congruence.
    + split; intros (st & Hst & _); discriminate.
Qed.

(** The spec's example: the route of GHG intensity 93.5 has a negative raw
    balance; banking it is refused and the ledger gets no row. *)
Example bankSurplus_R003_refused :
  ComplianceService.bankSurplus seed_db "R003" 2024
  = (Throw NegativeBalanceError, seed_db).
Proof. reflexivity. Qed.

(** A deficit route is refused even when its ledger makes the adjusted
    balance positive. *)
Example bankSurplus_refused_despite_positive_adjusted :
  let db := with_ledger seed_db [BankRow.mk 1 "R003" 2024 banked 900000000000 0] in
  (exists status,
      ComplianceService.calculateCB db "R003" 2024 = Ok status
      /\ ComplianceResult.cb status < 0
      /\ 0 < ComplianceResult.adjustedCB status)
  /\ ComplianceService.bankSurplus db "R003" 2024 = (Throw NegativeBalanceError, db).
Proof.
  split; [|reflexivity].
  eexists. split; [reflexivity|]. split; reflexivity.
Qed.

(** ** The Pool Aggregator *)

Lemma handleCreatePool_members
      (getCompliance : string -> Result ComplianceResult.t)
      (routes : list Route.t) (poolSelection : list Z) :
  App.handleCreatePool getCompliance routes poolSelection
  = (members <- poolMembers getCompliance routes poolSelection ;;
     let totalCB := reduce (fun acc cur => acc + App.Member.adjustedCB cur) 0 members in
     Ok {| App.PoolResult.totalCB := totalCB;
           App.PoolResult.results :=
             map (fun m =>
                    {| App.Allocation.id := App.Member.routeId m;
                       App.Allocation.before := App.Member.adjustedCB m;
                       App.Allocation.after :=
                         if num_ge totalCB 0
                         then (if num_lt (App.Member.adjustedCB m) 0
                               then 0 else App.Member.adjustedCB m)
                         else App.Member.adjustedCB m |})
                 (App.sort (fun a b => App.Member.adjustedCB b - App.Member.adjustedCB a)
                           members);
           App.PoolResult.valid := num_ge totalCB 0 |}).
Proof. reflexivity. Qed.

(** The spec's example: +5,000,000 and -2,000,000 pool to +3,000,000, a
    valid pool; the deficit member is shown at 0, the surplus member keeps
    its balance. *)
Example handleCreatePool_surplus_covers_deficit :
  App.handleCreatePool fixed_api (routes_of seed_db) [2%Z; 1%Z]
  = Ok {| App.PoolResult.totalCB := 0 + 5000000 + -2000000;
          App.PoolResult.results :=
            [ App.Allocation.mk "R001" 5000000 5000000;
              App.Allocation.mk "R002" (-2000000) 0 ];
          App.PoolResult.valid := true |}.
Proof. reflexivity. Qed.

(** *** Sorting by descending key *)

Section SortDescending.

Variable A : Type.
Variable key : A -> number.

Lemma insert_Permutation (a : A) (l : list A) :
  Permutation (App.insert (fun a b => key b - key a) a l) (a :: l).
Proof.
  induction l as [|b l IH]; simpl; [reflexivity|].
  destruct (num_le (key b - key a) 0); [reflexivity|].
  rewrite IH. apply perm_swap.
Qed.

Lemma sort_Permutation (l : list A) :
  Permutation (App.sort (fun a b => key b - key a) l) l.
Proof.
  unfold App.sort.
  induction l as [|a l IH]; simpl; [reflexivity|].
  rewrite insert_Permutation. now constructor.
Qed.

End SortDescending.

(** An invalid pool: the seeded routes R001 and R003 are both in deficit,
    and both keep their balance. *)
Example handleCreatePool_invalid_pool_keeps_balances :
  exists pool,
    App.handleCreatePool (backend_api seed_db 2024) (routes_of seed_db) [1%Z; 3%Z]
    = Ok pool
    /\ App.PoolResult.valid pool = false
    /\ map App.Allocation.id (App.PoolResult.results pool) = ["R001"%string; "R003"%string]
    /\ Forall (fun a => App.Allocation.after a = App.Allocation.before a)
              (App.PoolResult.results pool).
Proof.
  eexists. split; [reflexivity|].
  split; [reflexivity|]. split; [reflexivity|].
  repeat constructor.
Qed.


(** ** The target and the route's year *)

(** C8, as stated, does not hold: no schedule of targets that takes the
    value 89.3368 in 2025 and another value in some other year is the one
    [calculateCB] applies to the routes of each year. *)
Lemma calculateCB_applies_no_yearly_schedule :
  ~ exists target : Z -> Q,
      target 2025%Z == 89.3368
      /\ (exists y : Z, ~ target y == target 2025%Z)
      /\ applies_yearly_target target.
Proof.
  intros (target & H2025 & (y & Hy) & Happlies).
  apply Hy. rewrite H2025.
  set (db := {| routes := [RouteRow.mk 1 "X" "Tanker" "MGO" y 0 1 0 0 false];
                bank_entries := [];
                bank_entries_id_seq := 1;
                current_timestamp := 0 |}).
  destruct (Happlies db "X"%string y
                     (PostgresRouteAdapter.mapRowToRoute
                        (RouteRow.mk 1 "X" "Tanker" "MGO" y 0 1 0 0 false))
                     eq_refl)
    as (result & Hres & Hcb).
  injection Hres as <-. simpl in Hcb.
  unfold CONSTANTS.GHG_TARGET_2025, CONSTANTS.LCV, parseFloat in Hcb.
  lra.
Qed.

(** ** Pools of fewer than two routes *)

(** C9, as stated, does not hold: with no route selected
    [handleCreatePool] does not fail, it reports an empty valid pool. *)
Lemma handleCreatePool_accepts_empty_selection :
  (List.length ([] : list Z) < 2)%nat
  /\ App.handleCreatePool fixed_api (routes_of seed_db) []
     = Ok {| App.PoolResult.totalCB := 0;
             App.PoolResult.results := [];
             App.PoolResult.valid := true |}.
Proof. split; [simpl; lia | reflexivity]. Qed.

(** With one route selected it reports that route alone. *)
Example handleCreatePool_accepts_single_selection :
  App.handleCreatePool fixed_api (routes_of seed_db) [2%Z]
  = Ok {| App.PoolResult.totalCB := 0 + -2000000;
          App.PoolResult.results := [App.Allocation.mk "R002" (-2000000) (-2000000)];
          App.PoolResult.valid := false |}.
Proof. reflexivity. Qed.

(** C9, amended.  [handleCreatePool] has no check on the number of selected
    routes: whenever the compliance lookups of the selected routes succeed
    it returns a pool, and when it fails it is with the error of a lookup.
    Pools of fewer than two routes are kept out by the caller: the button is
    disabled exactly when fewer than two routes are selected, and a click on
    it then changes nothing. *)
Theorem createPool_size_guard_is_in_the_button
        (getCompliance : string -> Result ComplianceResult.t) (st : App.State) :
  (forall members : list App.Member.t,
      poolMembers getCompliance (App.routes st) (App.poolSelection st) = Ok members ->
      exists pool : App.PoolResult.t,
        App.handleCreatePool getCompliance (App.routes st) (App.poolSelection st)
        = Ok pool)
  /\ (forall e : string,
         App.handleCreatePool getCompliance (App.routes st) (App.poolSelection st)
         = Throw e ->
         poolMembers getCompliance (App.routes st) (App.poolSelection st) = Throw e)
  /\ (App.createPoolDisabled st = true
      <-> (List.length (App.poolSelection st) < 2)%nat)
  /\ ((List.length (App.poolSelection st) < 2)%nat ->
      App.clickCreatePool getCompliance st = Ok st).
Proof.
  assert (Hdis : App.createPoolDisabled st = true
                 <-> (List.length (App.poolSelection st) < 2)%nat)
    by (unfold App.createPoolDisabled; apply Nat.ltb_lt).
  split; [|split; [|split]].
  - intros members Hm. rewrite handleCreatePool_members, Hm. simpl.
    eexists. reflexivity.
  - intros e. rewrite handleCreatePool_members.
    destruct (poolMembers getCompliance (App.routes st) (App.poolSelection st));
      simpl; [discriminate | intros [= ->]; reflexivity].
  - exact Hdis.
  - intro Hlt. unfold App.clickCreatePool.
    apply Hdis in Hlt. now rewrite Hlt.
Qed.


(** * Further properties of the backend *)

(** ** Missing routes *)

Lemma route_findByRouteId_None_iff (db : Database) (routeId : string) :
  PostgresRouteAdapter.findByRouteId db routeId = None
  <-> ~ In routeId (map RouteRow.route_id (routes db)).
Proof.
  unfold PostgresRouteAdapter.findByRouteId.
  induction (routes db) as [|row rows IH]; simpl.
  - tauto.
  - destruct (String.eqb (RouteRow.route_id row) routeId) eqn:E.
    + apply String.eqb_eq in E. split; [discriminate|]. intro H. exfalso. auto.
    + apply String.eqb_neq in E. rewrite IH. tauto.
Qed.

(** X1.  [calculateCB] throws exactly when no row of [routes] has the
    route identifier, always with the message "Route not found";
    [bankSurplus] then throws the same error and leaves the database as it
    is. *)
Theorem calculateCB_fails_iff_route_missing
        (db : Database) (routeId : string) (year : Z) :
  ((exists e, ComplianceService.calculateCB db routeId year = Throw e)
   <-> ~ In routeId (map RouteRow.route_id (routes db)))
  /\ (forall e : string,
         ComplianceService.calculateCB db routeId year = Throw e ->
         e = "Route not found"%string
         /\ ComplianceService.bankSurplus db routeId year = (Throw e, db)).
Proof.
  rewrite <- route_findByRouteId_None_iff.
  unfold ComplianceService.bankSurplus.
  unfold ComplianceService.calculateCB.
  destruct (PostgresRouteAdapter.findByRouteId db routeId) as [route|].
  - split.
    + split; [intros [e He]; discriminate | discriminate].
    + intros e He. discriminate.
  - split.
    + split; [reflexivity | intros _; eexists; reflexivity].
    + intros e [= <-]. split; reflexivity.
Qed.

(** ** The ledger adapter *)

(** ** Banking one route and the other routes *)

Lemma bankSurplus_ledger (db : Database) (routeId : string) (year : Z) :
  routes (snd (ComplianceService.bankSurplus db routeId year)) = routes db
  /\ (bank_entries (snd (ComplianceService.bankSurplus db routeId year))
      = bank_entries db
      \/ exists status,
        ComplianceService.calculateCB db routeId year = Ok status
        /\ 0 < ComplianceResult.cb status
        /\ bank_entries_id_seq (snd (ComplianceService.bankSurplus db routeId year))
           = (bank_entries_id_seq db + 1)%Z
        /\ bank_entries (snd (ComplianceService.bankSurplus db routeId year))
           = bank_entries db
             ++ [ {| BankRow.id := bank_entries_id_seq db;
                     BankRow.route_id := routeId;
                     BankRow.year := year;
                     BankRow.type := banked;
                     BankRow.amount_gco2eq := ComplianceResult.cb status;
                     BankRow.created_at := current_timestamp db |} ]).
Proof.
  unfold ComplianceService.bankSurplus.
  destruct (ComplianceService.calculateCB db routeId year) as [status|e];
    [|simpl; auto].
  destruct (num_le (ComplianceResult.cb status) 0) eqn:E; [simpl; auto|].
  simpl. split; [reflexivity|]. right.
  exists status. apply num_le_false_iff in E. auto.
Qed.

(** X3.  Whether it succeeds or throws, [bankSurplus] for one route leaves
    the outcome of [calculateCB] for every other route identifier as it
    was. *)
Theorem bankSurplus_leaves_other_routes
        (db : Database) (routeId other : string) (year year' : Z)
        (Hother : other <> routeId) :
  ComplianceService.calculateCB
    (snd (ComplianceService.bankSurplus db routeId year)) other year'
  = ComplianceService.calculateCB db other year'.
Proof.
  destruct (bankSurplus_ledger db routeId year) as [Hroutes Hledger].
  set (db' := snd (ComplianceService.bankSurplus db routeId year)) in *.
  rewrite !calculateCB_unfold.
  assert (Hfind : PostgresRouteAdapter.findByRouteId db' other
                  = PostgresRouteAdapter.findByRouteId db other).
  { unfold PostgresRouteAdapter.findByRouteId. now rewrite Hroutes. }
  rewrite Hfind.
  assert (Hrows : rows_of_route other (bank_entries db')
                  = rows_of_route other (bank_entries db)).
  { destruct Hledger as [->|(status & _ & _ & _ & ->)]; [reflexivity|].
    unfold rows_of_route. rewrite filter_app. simpl.
    destruct (String.eqb routeId other) eqn:E.
    - apply String.eqb_eq in E. congruence.
    - apply app_nil_r. }
  now rewrite Hrows.
Qed.

Lemma bankSurplus_leaves_other_routes_witness :
  "R004"%string <> "R002"%string
  /\ ComplianceService.calculateCB
       (snd (ComplianceService.bankSurplus ledger_db "R002" 2025)) "R004" 2025
     = ComplianceService.calculateCB ledger_db "R004" 2025.
Proof.
  assert (H : "R004"%string <> "R002"%string) by discriminate.
  split; [exact H|].
  exact (bankSurplus_leaves_other_routes ledger_db "R002" "R004" 2025 2025 H).
Defined.

(** ** Banking again and again *)

Lemma calculateCB_adjusted_field
      (db : Database) (routeId : string) (year : Z) (status : ComplianceResult.t) :
  ComplianceService.calculateCB db routeId year = Ok status ->
  ComplianceResult.adjustedCB status
  = ComplianceResult.cb status + ComplianceResult.banked status.
Proof.
  rewrite calculateCB_unfold.
  destruct (PostgresRouteAdapter.findByRouteId db routeId); [|discriminate].
  now intros [= <-].
Qed.

(** ** The baseline flag *)

Lemma rows_with_id_nil_iff (id : Z) (rows : list RouteRow.t) :
  filter (fun row => Z.eqb (RouteRow.id row) id) rows = []
  <-> ~ In id (map RouteRow.id rows).
Proof.
  induction rows as [|row rows IH]; simpl; [tauto|].
  destruct (Z.eqb (RouteRow.id row) id) eqn:E.
  - apply Z.eqb_eq in E. split; [discriminate|]. intro H. exfalso. auto.
  - apply Z.eqb_neq in E. rewrite IH. tauto.
Qed.

Lemma rows_with_unique_id (target : RouteRow.t) (rows : list RouteRow.t) :
  NoDup (map RouteRow.id rows) ->
  In target rows ->
  filter (fun row => Z.eqb (RouteRow.id row) (RouteRow.id target)) rows = [target].
Proof.
  induction rows as [|row rows IH]; simpl; intros Hnd Hin; [contradiction|].
  inversion Hnd as [|? ? Hnotin Hnd']; subst.
  destruct Hin as [->|Hin].
  - rewrite Z.eqb_refl. f_equal. now apply rows_with_id_nil_iff.
  - destruct (Z.eqb (RouteRow.id row) (RouteRow.id target)) eqn:E.
    + apply Z.eqb_eq in E. exfalso. apply Hnotin. rewrite E. now apply in_map.
    + now apply IH.
Qed.

Lemma setBaseline_unique_id (db : Database) (target : RouteRow.t) :
  routes_id_unique db ->
  In target (routes db) ->
  PostgresRouteAdapter.setBaseline db (RouteRow.id target)
  = (Ok tt,
     PostgresRouteAdapter.with_routes
       db (map (rebaseline (RouteRow.id target) (RouteRow.year target)) (routes db))).
Proof.
  intros Hnd Hin. unfold PostgresRouteAdapter.setBaseline.
  rewrite (rows_with_unique_id target (routes db) Hnd Hin).
  f_equal. f_equal. rewrite map_map.
  apply map_ext_in. intros row Hrow. unfold rebaseline.
  destruct (Z.eqb (RouteRow.year row) (RouteRow.year target)) eqn:Ey; simpl.
  - destruct (Z.eqb (RouteRow.id row) (RouteRow.id target)); reflexivity.
  - destruct (Z.eqb (RouteRow.id row) (RouteRow.id target)) eqn:Ei; [|reflexivity].
    exfalso.
    assert (Heq : row = target).
    { pose proof (rows_with_unique_id target (routes db) Hnd Hin) as Hf.
      assert (Hr : In row (filter (fun r => Z.eqb (RouteRow.id r) (RouteRow.id target))
                                  (routes db)))
        by (apply filter_In; auto).
      rewrite Hf in Hr. destruct Hr as [Hr|[]]. now symmetry. }
    subst row. rewrite Z.eqb_refl in Ey. discriminate.
Qed.

Lemma rebaseline_is_baseline_of_year (id year : Z) (row : RouteRow.t) :
  RouteRow.is_baseline (rebaseline id year row)
  && Z.eqb (RouteRow.year (rebaseline id year row)) year
  = Z.eqb (RouteRow.id row) id && Z.eqb (RouteRow.year row) year.
Proof.
  unfold rebaseline.
  destruct (Z.eqb (RouteRow.year row) year) eqn:Ey; simpl.
  - now rewrite Ey.
  - now rewrite Ey, !andb_false_r.
Qed.

Lemma baselines_after_rebaseline_absent (id year : Z) (rows : list RouteRow.t) :
  ~ In id (map RouteRow.id rows) ->
  baselines_of_year year (map (rebaseline id year) rows) = [].
Proof.
  unfold baselines_of_year.
  induction rows as [|row rows IH]; simpl; intro Hnotin; [reflexivity|].
  assert (Hid : Z.eqb (RouteRow.id row) id = false)
    by (apply Z.eqb_neq; intro; apply Hnotin; auto).
  rewrite rebaseline_is_baseline_of_year, Hid. simpl. apply IH. tauto.
Qed.

Lemma baselines_after_rebaseline (target : RouteRow.t) (rows : list RouteRow.t) :
  NoDup (map RouteRow.id rows) ->
  In target rows ->
  baselines_of_year (RouteRow.year target)
                    (map (rebaseline (RouteRow.id target) (RouteRow.year target)) rows)
  = [PostgresRouteAdapter.set_is_baseline true target].
Proof.
  induction rows as [|row rows IH]; simpl; intros Hnd Hin; [contradiction|].
  inversion Hnd as [|? ? Hnotin Hnd']; subst.
  unfold baselines_of_year. simpl. rewrite rebaseline_is_baseline_of_year.
  destruct Hin as [->|Hin].
  - rewrite !Z.eqb_refl. simpl. f_equal.
    + unfold rebaseline. now rewrite !Z.eqb_refl.
    + now apply baselines_after_rebaseline_absent.
  - assert (Hid : Z.eqb (RouteRow.id row) (RouteRow.id target) = false).
    { apply Z.eqb_neq. intro E. apply Hnotin. rewrite E. now apply in_map. }
    rewrite Hid. simpl. now apply IH.
Qed.

Lemma baselines_of_other_year (id year other : Z) (rows : list RouteRow.t) :
  other <> year ->
  baselines_of_year other (map (rebaseline id year) rows) = baselines_of_year other rows.
Proof.
  intro Hneq. unfold baselines_of_year.
  induction rows as [|row rows IH]; simpl; [reflexivity|].
  unfold rebaseline at 1 2 3.
  destruct (Z.eqb (RouteRow.year row) year) eqn:Ey.
  - apply Z.eqb_eq in Ey. simpl.
    assert (Ho : Z.eqb (RouteRow.year row) other = false)
      by (apply Z.eqb_neq; congruence).
    rewrite Ho, !andb_false_r. exact IH.
  - destruct (RouteRow.is_baseline row && Z.eqb (RouteRow.year row) other);
      now rewrite IH.
Qed.

(** X6.  With unique route [id]s, [setBaseline] on a stored route
    succeeds; afterwards that route is the only one of its year that
    carries the flag, the flagged routes of every other year are as
    before, no column but the flag has changed in any row, and the ledger
    is untouched. *)
Theorem setBaseline_sets_only_baseline_of_year
        (db : Database) (target : RouteRow.t)
        (Hunique : routes_id_unique db) (Htarget : In target (routes db)) :
  exists db' : Database,
    PostgresRouteAdapter.setBaseline db (RouteRow.id target) = (Ok tt, db')
    /\ baselines_of_year (RouteRow.year target) (routes db')
       = [PostgresRouteAdapter.set_is_baseline true target]
    /\ (forall other : Z,
           other <> RouteRow.year target ->
           baselines_of_year other (routes db') = baselines_of_year other (routes db))
    /\ map (PostgresRouteAdapter.set_is_baseline false) (routes db')
       = map (PostgresRouteAdapter.set_is_baseline false) (routes db)
    /\ bank_entries db' = bank_entries db
    /\ bank_entries_id_seq db' = bank_entries_id_seq db.
Proof.
  eexists. split; [apply (setBaseline_unique_id db target Hunique Htarget)|].
  simpl. split; [|split; [|split; [|split]]].
  - now apply baselines_after_rebaseline.
  - intros other Hother. now apply baselines_of_other_year.
  - rewrite map_map. apply map_ext. intro row. unfold rebaseline.
    destruct (Z.eqb (RouteRow.year row) (RouteRow.year target)); reflexivity.
  - reflexivity.
  - reflexivity.
Qed.

Lemma setBaseline_sets_only_baseline_of_year_witness :
  let target := RouteRow.mk 4 "R004" "RoRo" "HFO" 2025 89.2 4900 11800 4300 false in
  routes_id_unique seed_db
  /\ In target (routes seed_db)
  /\ exists db' : Database,
      PostgresRouteAdapter.setBaseline seed_db 4 = (Ok tt, db')
      /\ baselines_of_year 2025 (routes db')
         = [PostgresRouteAdapter.set_is_baseline true target].
Proof.
  intro target.
  assert (Hu : routes_id_unique seed_db).
  { unfold routes_id_unique; simpl.
    repeat constructor; simpl; intuition discriminate. }
  assert (Hin : In target (routes seed_db)) by (simpl; tauto).
  split; [exact Hu|]. split; [exact Hin|].
  destruct (setBaseline_sets_only_baseline_of_year seed_db target Hu Hin)
    as (db' & Hset & Hbase & _).
  exists db'. split; [exact Hset | exact Hbase].
Defined.

(** X7.  After [setBaseline] on a stored route, [getBaseline] for that
    route's year returns that very route, flagged. *)
Theorem getBaseline_after_setBaseline
        (db : Database) (target : RouteRow.t)
        (Hunique : routes_id_unique db) (Htarget : In target (routes db)) :
  PostgresRouteAdapter.getBaseline
    (snd (PostgresRouteAdapter.setBaseline db (RouteRow.id target)))
    (RouteRow.year target)
  = Some (PostgresRouteAdapter.mapRowToRoute
            (PostgresRouteAdapter.set_is_baseline true target)).
Proof.
  rewrite (setBaseline_unique_id db target Hunique Htarget). simpl.
  unfold PostgresRouteAdapter.getBaseline. simpl.
  pose proof (baselines_after_rebaseline target (routes db) Hunique Htarget) as H.
  unfold baselines_of_year in H. now rewrite H.
Qed.

Lemma getBaseline_after_setBaseline_witness :
  let target := RouteRow.mk 2 "R002" "BulkCarrier" "LNG" 2024 88.0 4800 11500 4200 false in
  routes_id_unique seed_db
  /\ In target (routes seed_db)
  /\ PostgresRouteAdapter.getBaseline
       (snd (PostgresRouteAdapter.setBaseline seed_db 2)) 2024
     = Some (PostgresRouteAdapter.mapRowToRoute
               (PostgresRouteAdapter.set_is_baseline true target)).
Proof.
  intro target.
  assert (Hu : routes_id_unique seed_db).
  { unfold routes_id_unique; simpl.
    repeat constructor; simpl; intuition discriminate. }
  assert (Hin : In target (routes seed_db)) by (simpl; tauto).
  split; [exact Hu|]. split; [exact Hin|].
  exact (getBaseline_after_setBaseline seed_db target Hu Hin).
Defined.

(** *** The flag and the balances *)

Lemma with_routes_same (db : Database) : PostgresRouteAdapter.with_routes db (routes db) = db.
Proof. now destruct db. Qed.

Lemma setBaseline_changes_flags_only (db : Database) (id : Z) :
  exists f : RouteRow.t -> RouteRow.t,
    (forall row,
        PostgresRouteAdapter.set_is_baseline false (f row)
        = PostgresRouteAdapter.set_is_baseline false row)
    /\ snd (PostgresRouteAdapter.setBaseline db id)
       = PostgresRouteAdapter.with_routes db (map f (routes db)).
Proof.
  unfold PostgresRouteAdapter.setBaseline.
  destruct (filter (fun row => Z.eqb (RouteRow.id row) id) (routes db)) as [|r rs].
  - exists (fun row => row). split; [reflexivity|].
    simpl. now rewrite map_id, with_routes_same.
  - exists (fun row =>
              if Z.eqb (RouteRow.id (if Z.eqb (RouteRow.year row) (RouteRow.year r)
                                     then PostgresRouteAdapter.set_is_baseline false row
                                     else row)) id
              then PostgresRouteAdapter.set_is_baseline
                     true
                     (if Z.eqb (RouteRow.year row) (RouteRow.year r)
                      then PostgresRouteAdapter.set_is_baseline false row
                      else row)
              else (if Z.eqb (RouteRow.year row) (RouteRow.year r)
                    then PostgresRouteAdapter.set_is_baseline false row
                    else row)).
    split.
    + intro row.
      destruct (Z.eqb (RouteRow.year row) (RouteRow.year r)); simpl;
        destruct (Z.eqb (RouteRow.id row) id); reflexivity.
    + simpl. now rewrite map_map.
Qed.

Lemma flag_free_route_id (f : RouteRow.t -> RouteRow.t) (row : RouteRow.t) :
  PostgresRouteAdapter.set_is_baseline false (f row)
  = PostgresRouteAdapter.set_is_baseline false row ->
  RouteRow.route_id (f row) = RouteRow.route_id row
  /\ RouteRow.ghg_intensity (f row) = RouteRow.ghg_intensity row
  /\ RouteRow.fuel_consumption (f row) = RouteRow.fuel_consumption row
  /\ RouteRow.id (f row) = RouteRow.id row
  /\ RouteRow.year (f row) = RouteRow.year row.
Proof.
  intro H.
  repeat split.
  - exact (f_equal RouteRow.route_id H).
  - exact (f_equal RouteRow.ghg_intensity H).
  - exact (f_equal RouteRow.fuel_consumption H).
  - exact (f_equal RouteRow.id H).
  - exact (f_equal RouteRow.year H).
Qed.

Lemma calculateCB_flags_only
      (f : RouteRow.t -> RouteRow.t) (db : Database) (routeId : string) (year : Z) :
  (forall row,
      PostgresRouteAdapter.set_is_baseline false (f row)
      = PostgresRouteAdapter.set_is_baseline false row) ->
  ComplianceService.calculateCB
    (PostgresRouteAdapter.with_routes db (map f (routes db))) routeId year
  = ComplianceService.calculateCB db routeId year.
Proof.
  intro Hf. rewrite !calculateCB_unfold.
  simpl bank_entries.
  unfold PostgresRouteAdapter.findByRouteId. simpl routes.
  induction (routes db) as [|row rows IH]; simpl; [reflexivity|].
  destruct (flag_free_route_id f row (Hf row)) as (Hid & Hghg & Hfuel & _).
  rewrite Hid.
  destruct (String.eqb (RouteRow.route_id row) routeId); [|exact IH].
  simpl. unfold parseFloat. now rewrite Hghg, Hfuel.
Qed.

Lemma setBaseline_reads_routes_only (db db2 : Database) (id : Z) :
  routes db2 = routes db ->
  PostgresRouteAdapter.setBaseline db2 id
  = (fst (PostgresRouteAdapter.setBaseline db id),
     PostgresRouteAdapter.with_routes
       db2 (routes (snd (PostgresRouteAdapter.setBaseline db id)))).
Proof.
  intro Hroutes. unfold PostgresRouteAdapter.setBaseline. rewrite Hroutes.
  destruct (filter (fun row => Z.eqb (RouteRow.id row) id) (routes db)); simpl.
  - now rewrite <- Hroutes, with_routes_same.
  - reflexivity.
Qed.

Lemma setBaseline_leaves_balances_aux
      (db : Database) (id : Z) (routeId : string) (year : Z) :
  ComplianceService.calculateCB
    (snd (PostgresRouteAdapter.setBaseline db id)) routeId year
  = ComplianceService.calculateCB db routeId year.
Proof.
  destruct (setBaseline_changes_flags_only db id) as (f & Hf & ->).
  now apply calculateCB_flags_only.
Qed.

(** X8.  [setBaseline] touches no balance: after it, succeeded or not,
    [calculateCB] gives for every route identifier and year the outcome it
    gave before. *)
Theorem setBaseline_leaves_balances
        (db : Database) (id : Z) (routeId : string) (year : Z) :
  ComplianceService.calculateCB
    (snd (PostgresRouteAdapter.setBaseline db id)) routeId year
  = ComplianceService.calculateCB db routeId year.
Proof. apply setBaseline_leaves_balances_aux. Qed.

(** X9.  [setBaseline] and [bankSurplus] commute: in either order the two
    calls return the same results and end in the same database. *)
Theorem setBaseline_bankSurplus_commute
        (db : Database) (id : Z) (routeId : string) (year : Z) :
  let afterBaseline := PostgresRouteAdapter.setBaseline db id in
  let afterBank := ComplianceService.bankSurplus db routeId year in
  fst (ComplianceService.bankSurplus (snd afterBaseline) routeId year) = fst afterBank
  /\ fst (PostgresRouteAdapter.setBaseline (snd afterBank) id) = fst afterBaseline
  /\ snd (ComplianceService.bankSurplus (snd afterBaseline) routeId year)
     = snd (PostgresRouteAdapter.setBaseline (snd afterBank) id).
Proof.
  intros afterBaseline afterBank.
  assert (Hroutes : routes (snd afterBank) = routes db)
    by (apply bankSurplus_ledger).
  rewrite (setBaseline_reads_routes_only db (snd afterBank) id Hroutes).
  fold afterBaseline. simpl fst. simpl snd.
  pose proof (setBaseline_leaves_balances_aux db id routeId year) as Hcb.
  fold afterBaseline in Hcb.
  destruct (setBaseline_changes_flags_only db id) as (f & _ & Hdb).
  fold afterBaseline in Hdb.
  subst afterBank. unfold ComplianceService.bankSurplus. rewrite Hcb, Hdb.
  destruct (ComplianceService.calculateCB db routeId year) as [status|e].
  - destruct (num_le (ComplianceResult.cb status) 0); simpl; repeat split.
  - simpl. repeat split.
Qed.

(** X10.  [setBaseline] is idempotent: a second call with the same [id]
    changes nothing more. *)
Theorem setBaseline_idempotent (db : Database) (id : Z) :
  PostgresRouteAdapter.setBaseline
    (snd (PostgresRouteAdapter.setBaseline db id)) id
  = PostgresRouteAdapter.setBaseline db id.
Proof.
  unfold PostgresRouteAdapter.setBaseline.
  destruct (filter (fun row => Z.eqb (RouteRow.id row) id) (routes db))
    as [|r rs] eqn:Hfilter; simpl.
  - now rewrite Hfilter.
  - rewrite !map_map.
    set (g := fun row : RouteRow.t =>
                if Z.eqb (RouteRow.id (if Z.eqb (RouteRow.year row) (RouteRow.year r)
                                       then PostgresRouteAdapter.set_is_baseline false row
                                       else row)) id
                then PostgresRouteAdapter.set_is_baseline
                       true
                       (if Z.eqb (RouteRow.year row) (RouteRow.year r)
                        then PostgresRouteAdapter.set_is_baseline false row
                        else row)
                else (if Z.eqb (RouteRow.year row) (RouteRow.year r)
                      then PostgresRouteAdapter.set_is_baseline false row
                      else row)).
    assert (Hid : forall row, RouteRow.id (g row) = RouteRow.id row).
    { intro row. unfold g.
      destruct (Z.eqb (RouteRow.year row) (RouteRow.year r)); simpl;
        destruct (Z.eqb (RouteRow.id row) id); reflexivity. }
    assert (Hyear : forall row, RouteRow.year (g row) = RouteRow.year row).
    { intro row. unfold g.
      destruct (Z.eqb (RouteRow.year row) (RouteRow.year r)); simpl;
        destruct (Z.eqb (RouteRow.id row) id); reflexivity. }
    assert (Hfilter' : filter (fun row => Z.eqb (RouteRow.id row) id)
                              (map g (routes db))
                       = map g (r :: rs)).
    { rewrite <- Hfilter. clear Hfilter.
      induction (routes db) as [|row rows IH]; simpl; [reflexivity|].
      rewrite Hid.
      destruct (Z.eqb (RouteRow.id row) id); simpl; now rewrite IH. }
    rewrite Hfilter'. simpl. rewrite Hyear.
    assert (Hrows :
              map (fun row => if Z.eqb (RouteRow.id row) id
                              then PostgresRouteAdapter.set_is_baseline true row
                              else row)
                  (map (fun row => if Z.eqb (RouteRow.year row) (RouteRow.year r)
                                   then PostgresRouteAdapter.set_is_baseline false row
                                   else row)
                       (map g (routes db)))
              = map g (routes db)).
    { rewrite !map_map. apply map_ext. intro row.
      unfold g.
      destruct (Z.eqb (RouteRow.year row) (RouteRow.year r)) eqn:Ey; simpl;
        destruct (Z.eqb (RouteRow.id row) id) eqn:Ei; simpl;
          rewrite ?Ey, ?Ei; simpl; rewrite ?Ei; reflexivity. }
    rewrite Hrows. reflexivity.
Qed.


(** ** What no sequence of calls can do *)

Lemma bankSurplus_outcome (db : Database) (routeId : string) (year : Z) :
  snd (ComplianceService.bankSurplus db routeId year) = db
  \/ exists status,
      ComplianceService.calculateCB db routeId year = Ok status
      /\ 0 < ComplianceResult.cb status
      /\ snd (ComplianceService.bankSurplus db routeId year)
         = {| routes := routes db;
              bank_entries :=
                bank_entries db
                ++ [ {| BankRow.id := bank_entries_id_seq db;
                        BankRow.route_id := routeId;
                        BankRow.year := year;
                        BankRow.type := banked;
                        BankRow.amount_gco2eq := ComplianceResult.cb status;
                        BankRow.created_at := current_timestamp db |} ];
              bank_entries_id_seq := (bank_entries_id_seq db + 1)%Z;
              current_timestamp := current_timestamp db |}.
Proof.
  unfold ComplianceService.bankSurplus.
  destruct (ComplianceService.calculateCB db routeId year) as [status|e];
    [|simpl; auto].
  destruct (num_le (ComplianceResult.cb status) 0) eqn:E; [simpl; auto|].
  right. exists status. apply num_le_false_iff in E. simpl. auto.
Qed.

Lemma calculateCB_reads_two_tables (db1 db2 : Database) (routeId : string) (year : Z) :
  routes db1 = routes db2 ->
  bank_entries db1 = bank_entries db2 ->
  ComplianceService.calculateCB db1 routeId year
  = ComplianceService.calculateCB db2 routeId year.
Proof.
  intros Hr Hb. rewrite !calculateCB_unfold.
  unfold PostgresRouteAdapter.findByRouteId. now rewrite Hr, Hb.
Qed.

Lemma same_raw_balances_refl (db : Database) : same_raw_balances db db.
Proof.
  intros routeId year.
  destruct (ComplianceService.calculateCB db routeId year); reflexivity.
Qed.

Lemma same_raw_balances_trans (db1 db2 db3 : Database) :
  same_raw_balances db1 db2 -> same_raw_balances db2 db3 -> same_raw_balances db1 db3.
Proof.
  intros H12 H23 routeId year.
  specialize (H12 routeId year). specialize (H23 routeId year).
  destruct (ComplianceService.calculateCB db1 routeId year),
           (ComplianceService.calculateCB db2 routeId year),
           (ComplianceService.calculateCB db3 routeId year);
    try contradiction; congruence.
Qed.

Lemma perform_step (db : Database) (call : Call) :
  (exists added, bank_entries (perform db call) = bank_entries db ++ added)
  /\ map (PostgresRouteAdapter.set_is_baseline false) (routes (perform db call))
     = map (PostgresRouteAdapter.set_is_baseline false) (routes db)
  /\ same_raw_balances db (perform db call).
Proof.
  destruct call as [routeId year|id]; simpl.
  - destruct (bankSurplus_outcome db routeId year) as [->|(status & _ & _ & ->)].
    + split; [exists []; now rewrite app_nil_r|].
      split; [reflexivity | apply same_raw_balances_refl].
    + simpl. split; [eexists; reflexivity|]. split; [reflexivity|].
      intros rid y.
      pose proof (calculateCB_with_ledger_cb
                    db (bank_entries db
                        ++ [ {| BankRow.id := bank_entries_id_seq db;
                                BankRow.route_id := routeId;
                                BankRow.year := year;
                                BankRow.type := banked;
                                BankRow.amount_gco2eq := ComplianceResult.cb status;
                                BankRow.created_at := current_timestamp db |} ])
                    rid y) as H.
      erewrite (calculateCB_reads_two_tables _ (with_ledger db _)); [exact H| |];
        reflexivity.
  - destruct (setBaseline_changes_flags_only db id) as (f & Hf & Hdb).
    split; [exists []; rewrite Hdb; simpl; now rewrite app_nil_r|].
    split.
    + rewrite Hdb. simpl. rewrite map_map. now apply map_ext.
    + intros rid y. rewrite (setBaseline_leaves_balances_aux db id rid y).
      apply same_raw_balances_refl.
Qed.

(** X11.  Whatever calls are made, succeeding or throwing, the ledger only
    grows at its end, no column of [routes] but the baseline flag changes,
    and the raw balance of every route, or its failure, stays as it was. *)
Theorem calls_keep_history_and_raw_balances (db : Database) (calls : list Call) :
  (exists added : list BankRow.t,
      bank_entries (perform_all db calls) = bank_entries db ++ added)
  /\ map (PostgresRouteAdapter.set_is_baseline false) (routes (perform_all db calls))
     = map (PostgresRouteAdapter.set_is_baseline false) (routes db)
  /\ same_raw_balances db (perform_all db calls).
Proof.
  unfold perform_all. revert db.
  induction calls as [|call calls IH]; intro db; simpl.
  - split; [exists []; now rewrite app_nil_r|].
    split; [reflexivity | apply same_raw_balances_refl].
  - destruct (perform_step db call) as ((added1 & Hl1) & Hr1 & Hs1).
    destruct (IH (perform db call)) as ((added2 & Hl2) & Hr2 & Hs2).
    split; [|split].
    + exists (added1 ++ added2). now rewrite Hl2, Hl1, app_assoc.
    + now rewrite Hr2.
    + now apply same_raw_balances_trans with (perform db call).
Qed.

Lemma perform_ids_fresh (db : Database) (call : Call) :
  ledger_ids_fresh db -> ledger_ids_fresh (perform db call).
Proof.
  intros [Hlt Hnd].
  destruct call as [routeId year|id]; simpl.
  - destruct (bankSurplus_outcome db routeId year) as [->|(status & _ & _ & ->)];
      [now split|].
    split; simpl.
    + apply Forall_app. split.
      * eapply Forall_impl; [|exact Hlt]. intros row Hrow. simpl in *. lia.
      * constructor; [simpl; lia | constructor].
    + rewrite map_app. simpl.
      apply NoDup_app; [exact Hnd | repeat constructor; simpl; tauto |].
      intros x Hx [<-|[]].
      apply in_map_iff in Hx. destruct Hx as (row & Hid & Hin).
      rewrite Forall_forall in Hlt. specialize (Hlt row Hin). simpl in Hlt. lia.
  - destruct (setBaseline_changes_flags_only db id) as (f & _ & ->).
    now split.
Qed.

(** X12.  If the identifiers of the ledger are pairwise distinct and below
    the next value of the sequence, they still are after any sequence of
    calls: no call reuses the identifier of a ledger row. *)
Theorem calls_keep_ledger_ids_fresh
        (db : Database) (calls : list Call) (Hfresh : ledger_ids_fresh db) :
  ledger_ids_fresh (perform_all db calls).
Proof.
  unfold perform_all. revert db Hfresh.
  induction calls as [|call calls IH]; intros db Hfresh; simpl; [exact Hfresh|].
  apply IH. now apply perform_ids_fresh.
Qed.

Lemma calls_keep_ledger_ids_fresh_witness :
  ledger_ids_fresh ledger_db
  /\ ledger_ids_fresh
       (perform_all ledger_db
                    [CallBankSurplus "R002" 2025; CallSetBaseline 1;
                     CallBankSurplus "R003" 2024; CallBankSurplus "R004" 2025]).
Proof.
  assert (H : ledger_ids_fresh ledger_db).
  { split; simpl.
    - repeat constructor.
    - repeat constructor; simpl; intuition discriminate. }
  split; [exact H|].
  exact (calls_keep_ledger_ids_fresh ledger_db _ H).
Defined.

Lemma calculateCB_Ok_route_stored
      (db : Database) (routeId : string) (year : Z) (status : ComplianceResult.t) :
  ComplianceService.calculateCB db routeId year = Ok status ->
  In routeId (map RouteRow.route_id (routes db)).
Proof.
  intro H.
  destruct (in_dec string_dec routeId (map RouteRow.route_id (routes db)))
    as [Hin|Hnotin]; [exact Hin|].
  apply route_findByRouteId_None_iff in Hnotin.
  unfold ComplianceService.calculateCB in H. rewrite Hnotin in H. discriminate.
Qed.

Lemma perform_well_formed (db : Database) (call : Call) :
  ledger_well_formed db -> ledger_well_formed (perform db call).
Proof.
  unfold ledger_well_formed. intro Hwf.
  destruct call as [routeId year|id]; simpl.
  - destruct (bankSurplus_outcome db routeId year)
      as [->|(status & Hstatus & Hpos & ->)]; [exact Hwf|].
    simpl. apply Forall_app. split; [exact Hwf|].
    constructor; [|constructor]. simpl.
    split; [reflexivity|]. split; [exact Hpos|].
    exact (calculateCB_Ok_route_stored db routeId year status Hstatus).
  - destruct (setBaseline_changes_flags_only db id) as (f & Hf & ->). simpl.
    assert (Hids : map RouteRow.route_id (map f (routes db))
                   = map RouteRow.route_id (routes db)).
    { rewrite map_map. apply map_ext. intro row.
      apply (flag_free_route_id f row (Hf row)). }
    now rewrite Hids.
Qed.

Lemma Qsum_nonneg (l : list Q) : Forall (fun x => 0 < x) l -> 0 <= Qsum l.
Proof.
  induction 1 as [|x l Hx Hl IH]; simpl; lra.
Qed.

Lemma well_formed_amounts (routeId : string) (rows : list BankRow.t) :
  Forall (fun row => BankRow.type row = banked /\ 0 < BankRow.amount_gco2eq row) rows ->
  ledger_amounts applied routeId rows = []
  /\ Forall (fun x => 0 < x) (ledger_amounts banked routeId rows).
Proof.
  unfold ledger_amounts.
  induction 1 as [|row rows [Hty Hpos] Hrows [IHa IHb]]; simpl; [split; constructor|].
  rewrite Hty. simpl. rewrite andb_false_r, andb_true_r.
  split; [exact IHa|].
  destruct (String.eqb (BankRow.route_id row) routeId); simpl; [constructor|]; assumption.
Qed.

(** X13.  If every row of the ledger is a [banked] entry of a strictly
    positive amount for a stored route, this still holds after any sequence
    of calls; and then the net banked amount of every route is at least 0
    and its adjusted balance at least its raw balance. *)
Theorem calls_keep_ledger_well_formed
        (db : Database) (calls : list Call) (Hwf : ledger_well_formed db) :
  ledger_well_formed (perform_all db calls)
  /\ forall (routeId : string) (year : Z) (status : ComplianceResult.t),
      ComplianceService.calculateCB (perform_all db calls) routeId year = Ok status ->
      0 <= ComplianceResult.banked status
      /\ ComplianceResult.cb status <= ComplianceResult.adjustedCB status.
Proof.
  assert (Hall : ledger_well_formed (perform_all db calls)).
  { unfold perform_all. revert db Hwf.
    induction calls as [|call calls IH]; intros db Hwf; simpl; [exact Hwf|].
    apply IH. now apply perform_well_formed. }
  split; [exact Hall|].
  intros routeId year status Hstatus.
  pose proof (net_banked_is_ledger_sum _ routeId year status Hstatus) as Hnet.
  pose proof (calculateCB_adjusted_field _ routeId year status Hstatus) as Hadj.
  destruct (well_formed_amounts routeId (bank_entries (perform_all db calls)))
    as [Ha Hb].
  { eapply Forall_impl; [|exact Hall]. simpl. tauto. }
  rewrite Ha in Hnet. simpl Qsum in Hnet.
  apply Qsum_nonneg in Hb.
  assert (H0 : 0 <= ComplianceResult.banked status) by (rewrite Hnet; lra).
  split; [exact H0|]. rewrite Hadj. lra.
Qed.

Lemma calls_keep_ledger_well_formed_witness :
  let calls := [CallBankSurplus "R002" 2024; CallSetBaseline 2;
                CallBankSurplus "R002" 2025; CallBankSurplus "R001" 2024] in
  ledger_well_formed seed_db
  /\ ledger_well_formed (perform_all seed_db calls)
  /\ List.length (bank_entries (perform_all seed_db calls)) = 2%nat.
Proof.
  intro calls.
  assert (H : ledger_well_formed seed_db) by constructor.
  split; [exact H|].
  split; [exact (proj1 (calls_keep_ledger_well_formed seed_db calls H)) | reflexivity].
Defined.

Lemma perform_one_baseline (db : Database) (call : Call) :
  routes_id_unique db ->
  one_baseline_per_year db ->
  routes_id_unique (perform db call) /\ one_baseline_per_year (perform db call).
Proof.
  intros Hu Hone.
  destruct call as [routeId year|id]; simpl.
  - destruct (bankSurplus_ledger db routeId year) as [Hroutes _].
    unfold routes_id_unique, one_baseline_per_year. now rewrite Hroutes.
  - destruct (in_dec Z.eq_dec id (map RouteRow.id (routes db))) as [Hin|Hnotin].
    + apply in_map_iff in Hin. destruct Hin as (target & <- & Hin).
      rewrite (setBaseline_unique_id db target Hu Hin). simpl.
      split.
      * unfold routes_id_unique. simpl. rewrite map_map.
        erewrite map_ext; [exact Hu|].
        intro row. unfold rebaseline.
        destruct (Z.eqb (RouteRow.year row) (RouteRow.year target)); reflexivity.
      * intro y. simpl.
        destruct (Z.eq_dec y (RouteRow.year target)) as [->|Hneq].
        -- rewrite (baselines_after_rebaseline target (routes db) Hu Hin).
           simpl. lia.
        -- rewrite baselines_of_other_year by exact Hneq. apply Hone.
    + apply rows_with_id_nil_iff in Hnotin.
      unfold PostgresRouteAdapter.setBaseline. rewrite Hnotin. simpl. now split.
Qed.

(** X14.  With unique route [id]s, "at most one baseline route per year"
    is an invariant: if it holds, it holds after any sequence of calls. *)
Theorem calls_keep_one_baseline_per_year
        (db : Database) (calls : list Call)
        (Hunique : routes_id_unique db) (Hone : one_baseline_per_year db) :
  one_baseline_per_year (perform_all db calls).
Proof.
  unfold perform_all. revert db Hunique Hone.
  induction calls as [|call calls IH]; intros db Hunique Hone; simpl; [exact Hone|].
  destruct (perform_one_baseline db call Hunique Hone) as [Hu' Hone'].
  now apply IH.
Qed.

Lemma calls_keep_one_baseline_per_year_witness :
  let calls := [CallSetBaseline 1; CallSetBaseline 4; CallBankSurplus "R002" 2024;
                CallSetBaseline 3; CallSetBaseline 9] in
  routes_id_unique seed_db
  /\ one_baseline_per_year seed_db
  /\ one_baseline_per_year (perform_all seed_db calls)
  /\ map RouteRow.is_baseline (routes (perform_all seed_db calls))
     = [false; false; true; true; false].
Proof.
  intro calls.
  assert (Hu : routes_id_unique seed_db).
  { unfold routes_id_unique; simpl.
    repeat constructor; simpl; intuition discriminate. }
  assert (Hone : one_baseline_per_year seed_db).
  { intro y. unfold baselines_of_year. simpl. lia. }
  split; [exact Hu|]. split; [exact Hone|].
  split; [exact (calls_keep_one_baseline_per_year seed_db calls Hu Hone) | reflexivity].
Defined.


(** ** Seeding *)

(** X15.  [seedDatabase] leaves a database that already holds a route
    exactly as it is, so seeding twice is seeding once; it never touches
    the ledger; and seeding an empty [routes] table gives the five routes
    R001 to R005 with pairwise distinct identifiers and no baseline. *)
Theorem seedDatabase_only_seeds_empty_table (routes_id_seq : Z) (db : Database) :
  (routes db <> [] -> seedDatabase routes_id_seq db = (routes_id_seq, db))
  /\ seedDatabase (fst (seedDatabase routes_id_seq db))
                  (snd (seedDatabase routes_id_seq db))
     = seedDatabase routes_id_seq db
  /\ bank_entries (snd (seedDatabase routes_id_seq db)) = bank_entries db
  /\ (routes db = [] ->
      map RouteRow.route_id (routes (snd (seedDatabase routes_id_seq db)))
      = ["R001"; "R002"; "R003"; "R004"; "R005"]%string
      /\ route_id_unique (snd (seedDatabase routes_id_seq db))
      /\ routes_id_unique (snd (seedDatabase routes_id_seq db))
      /\ Forall (fun row => RouteRow.is_baseline row = false)
                (routes (snd (seedDatabase routes_id_seq db)))).
Proof.
  unfold seedDatabase.
  destruct (routes db) as [|row rows] eqn:Hroutes.
  - simpl. split; [intro H; now exfalso|].
    split; [reflexivity|]. split; [reflexivity|]. intros _.
    split; [reflexivity|].
    split; [|split].
    + unfold route_id_unique. simpl.
      repeat constructor; simpl; intuition discriminate.
    + unfold routes_id_unique. simpl.
      repeat constructor; simpl; intuition lia.
    + repeat constructor.
  - simpl. split; [reflexivity|].
    rewrite Hroutes. simpl.
    split; [reflexivity|]. split; [reflexivity|]. discriminate.
Qed.


(** * Further properties of the frontend *)

(** ** Compliant routes and bankable routes *)


(** ** The pool selection *)

Lemma includes_true_iff (arr : list Z) (x : Z) : App.includes arr x = true <-> In x arr.
Proof.
  unfold App.includes. rewrite existsb_exists. split.
  - intros (y & Hin & Heq). apply Z.eqb_eq in Heq. now subst.
  - intro Hin. exists x. split; [exact Hin | apply Z.eqb_refl].
Qed.

Lemma includes_app (arr1 arr2 : list Z) (x : Z) :
  App.includes (arr1 ++ arr2) x = App.includes arr1 x || App.includes arr2 x.
Proof. unfold App.includes. apply existsb_app. Qed.

Lemma includes_without (arr : list Z) (id x : Z) :
  App.includes (filter (fun y => negb (Z.eqb y id)) arr) x
  = App.includes arr x && negb (Z.eqb x id).
Proof.
  unfold App.includes.
  induction arr as [|y arr IH]; simpl; [reflexivity|].
  destruct (Z.eqb y id) eqn:Ey; simpl.
  - rewrite IH. apply Z.eqb_eq in Ey. subst y.
    destruct (Z.eqb x id) eqn:Ex; simpl.
    + now rewrite andb_false_r.
    + reflexivity.
  - rewrite IH.
    destruct (Z.eqb x y) eqn:Exy; simpl; [|reflexivity].
    apply Z.eqb_eq in Exy. subst y.
    now rewrite Ey.
Qed.

(** X17.  [togglePoolMember] flips the membership of the toggled
    identifier and of no other one. *)
Theorem togglePoolMember_flips_membership (prev : list Z) (id x : Z) :
  App.includes (App.togglePoolMember prev id) x
  = if Z.eqb x id then negb (App.includes prev id) else App.includes prev x.
Proof.
  unfold App.togglePoolMember.
  destruct (App.includes prev id) eqn:Hid.
  - rewrite includes_without.
    destruct (Z.eqb x id) eqn:Ex; simpl.
    + apply andb_false_r.
    + apply andb_true_r.
  - rewrite includes_app. simpl.
    destruct (Z.eqb x id) eqn:Ex; simpl.
    + apply Z.eqb_eq in Ex. subst x. now rewrite Hid.
    + now rewrite orb_false_r.
Qed.

Lemma togglePoolMember_NoDup (prev : list Z) (id : Z) :
  NoDup prev -> NoDup (App.togglePoolMember prev id).
Proof.
  intro Hnd. unfold App.togglePoolMember.
  destruct (App.includes prev id) eqn:Hid.
  - now apply NoDup_filter.
  - apply NoDup_app; [exact Hnd | repeat constructor; simpl; tauto |].
    intros x Hx [<-|[]].
    apply includes_true_iff in Hx. congruence.
Qed.

(** X18.  A selection without duplicates stays without duplicates under
    any sequence of toggles, so its length counts the selected routes; in
    particular every selection reached from the empty one has none. *)
Theorem togglePoolMember_keeps_NoDup
        (prev : list Z) (ids : list Z) (Hprev : NoDup prev) :
  NoDup (fold_left App.togglePoolMember ids prev).
Proof.
  revert prev Hprev.
  induction ids as [|id ids IH]; intros prev Hprev; simpl; [exact Hprev|].
  apply IH. now apply togglePoolMember_NoDup.
Qed.

Lemma togglePoolMember_keeps_NoDup_witness :
  NoDup ([] : list Z)
  /\ NoDup (fold_left App.togglePoolMember [1; 2; 1; 3; 2; 2; 1]%Z [])
  /\ fold_left App.togglePoolMember [1; 2; 1; 3; 2; 2; 1]%Z [] = [3; 2; 1]%Z.
Proof.
  assert (H : NoDup ([] : list Z)) by constructor.
  split; [exact H|].
  split; [exact (togglePoolMember_keeps_NoDup [] [1; 2; 1; 3; 2; 2; 1]%Z H)|].
  reflexivity.
Defined.

Lemma filter_absent (id : Z) (arr : list Z) :
  ~ In id arr -> filter (fun y => negb (Z.eqb y id)) arr = arr.
Proof.
  induction arr as [|y arr IH]; simpl; intro Hnotin; [reflexivity|].
  destruct (Z.eqb y id) eqn:Ey.
  - apply Z.eqb_eq in Ey. exfalso. auto.
  - simpl. f_equal. apply IH. tauto.
Qed.

Lemma filter_present_Permutation (id : Z) (arr : list Z) :
  NoDup arr -> In id arr ->
  Permutation (filter (fun y => negb (Z.eqb y id)) arr ++ [id]) arr.
Proof.
  induction arr as [|y arr IH]; simpl; intros Hnd Hin; [contradiction|].
  inversion Hnd as [|? ? Hnotin Hnd']; subst.
  destruct (Z.eqb y id) eqn:Ey.
  - apply Z.eqb_eq in Ey. subst y. simpl.
    rewrite (filter_absent id arr Hnotin).
    symmetry. apply Permutation_cons_append.
  - simpl. constructor. apply IH; [exact Hnd'|].
    destruct Hin as [->|Hin]; [|exact Hin].
    rewrite Z.eqb_refl in Ey. discriminate.
Qed.

(** X19.  Toggling an identifier twice: when it was not selected, the
    selection is back exactly as it was; when it was selected, in a
    selection without duplicates, the result selects the same identifiers,
    with the toggled one moved to the end. *)
Theorem togglePoolMember_twice (prev : list Z) (id : Z) :
  (~ In id prev ->
   App.togglePoolMember (App.togglePoolMember prev id) id = prev)
  /\ (In id prev -> NoDup prev ->
      App.togglePoolMember (App.togglePoolMember prev id) id
      = filter (fun y => negb (Z.eqb y id)) prev ++ [id]
      /\ Permutation (App.togglePoolMember (App.togglePoolMember prev id) id) prev).
Proof.
  split.
  - intro Hnotin.
    assert (H1 : App.includes prev id = false).
    { apply not_true_iff_false. now rewrite includes_true_iff. }
    unfold App.togglePoolMember at 2. rewrite H1.
    unfold App.togglePoolMember.
    rewrite includes_app. simpl. rewrite Z.eqb_refl, orb_true_r.
    rewrite filter_app. simpl. rewrite Z.eqb_refl. simpl.
    rewrite app_nil_r. now apply filter_absent.
  - intros Hin Hnd.
    assert (H1 : App.includes prev id = true) by (now apply includes_true_iff).
    assert (Heq : App.togglePoolMember (App.togglePoolMember prev id) id
                  = filter (fun y => negb (Z.eqb y id)) prev ++ [id]).
    { unfold App.togglePoolMember at 2. rewrite H1.
      unfold App.togglePoolMember.
      now rewrite includes_without, Z.eqb_refl, andb_false_r. }
    split; [exact Heq|].
    rewrite Heq. now apply filter_present_Permutation.
Qed.

(** ** Pools *)

(** X20.  [handleCreatePool] looks at the selection only through
    membership: two selections that select the same identifiers, in any
    order and with any repetitions, give the same outcome. *)
Theorem handleCreatePool_selection_as_set
        (getCompliance : string -> Result ComplianceResult.t)
        (routes : list Route.t) (selection selection' : list Z)
        (Hsame : forall x : Z, In x selection <-> In x selection') :
  App.handleCreatePool getCompliance routes selection
  = App.handleCreatePool getCompliance routes selection'.
Proof.
  unfold App.handleCreatePool.
  assert (Hfilter : filter (fun r => App.includes selection (Route.id r)) routes
                    = filter (fun r => App.includes selection' (Route.id r)) routes).
  { apply filter_ext. intro r.
    destruct (App.includes selection (Route.id r)) eqn:E1;
      destruct (App.includes selection' (Route.id r)) eqn:E2; try reflexivity.
    - apply includes_true_iff, Hsame, includes_true_iff in E1. congruence.
    - apply includes_true_iff, Hsame, includes_true_iff in E2. congruence. }
  now rewrite Hfilter.
Qed.

Lemma handleCreatePool_selection_as_set_witness :
  (forall x : Z, In x [2; 1]%Z <-> In x [1; 2; 2; 1]%Z)
  /\ App.handleCreatePool fixed_api (routes_of seed_db) [2; 1]%Z
     = App.handleCreatePool fixed_api (routes_of seed_db) [1; 2; 2; 1]%Z.
Proof.
  assert (H : forall x : Z, In x [2; 1]%Z <-> In x [1; 2; 2; 1]%Z)
    by (intro x; simpl; tauto).
  split; [exact H|].
  exact (handleCreatePool_selection_as_set fixed_api (routes_of seed_db) _ _ H).
Defined.

Lemma mapM_Throw_iff {A B : Type} (f : A -> Result B) (arr : list A) :
  (exists e, mapM f arr = Throw e) <-> exists x e, In x arr /\ f x = Throw e.
Proof.
  induction arr as [|x arr IH]; simpl.
  - split; [intros [e He]; discriminate | intros (x & e & [] & _)].
  - destruct (f x) as [y|e] eqn:Ex; simpl.
    + destruct (mapM f arr) as [ys|e'] eqn:Em; simpl.
      * split; [intros [e He]; discriminate|].
        intros (x' & e & [<-|Hin] & Hx'); [congruence|].
        destruct (proj2 IH) as [e'' He'']; [now exists x', e | discriminate].
      * split; [|intros _; eexists; reflexivity].
        intros _. destruct (proj1 IH) as (x' & e & Hin & Hx');
          [eexists; reflexivity|].
        exists x', e. auto.
    + split; [|intros _; eexists; reflexivity].
      intros _. exists x, e. auto.
Qed.

Lemma mapM_Ok_map {A B C : Type} (f : A -> Result B) (g : B -> C) (h : A -> C)
      (arr : list A) (ys : list B) :
  (forall x y, f x = Ok y -> g y = h x) ->
  mapM f arr = Ok ys ->
  map g ys = map h arr.
Proof.
  intro Hgh. revert ys.
  induction arr as [|x arr IH]; simpl; intros ys H.
  - now injection H as <-.
  - destruct (f x) as [y|e] eqn:Ex; simpl in H; [|discriminate].
    destruct (mapM f arr) as [ys'|e] eqn:Em; simpl in H; [|discriminate].
    injection H as <-. simpl. f_equal; [now apply Hgh | now apply IH].
Qed.

(** X21.  [handleCreatePool] throws exactly when the compliance lookup
    fails for some listed route whose [id] is selected; a failing click
    produces no pool result. *)
Theorem handleCreatePool_fails_iff_lookup_fails
        (getCompliance : string -> Result ComplianceResult.t) (st : App.State) :
  ((exists e, App.handleCreatePool getCompliance (App.routes st) (App.poolSelection st)
              = Throw e)
   <-> exists (r : Route.t) (e : string),
      In r (App.routes st)
      /\ In (Route.id r) (App.poolSelection st)
      /\ getCompliance (Route.routeId r) = Throw e)
  /\ (forall e,
         App.handleCreatePool getCompliance (App.routes st) (App.poolSelection st)
         = Throw e ->
         (2 <= List.length (App.poolSelection st))%nat ->
         App.clickCreatePool getCompliance st = Throw e).
Proof.
  split.
  - rewrite handleCreatePool_members. unfold poolMembers.
    set (f := fun r : Route.t =>
                comp <- getCompliance (Route.routeId r) ;; Ok (App.Member.mk r comp)).
    assert (Hf : forall r e, f r = Throw e <-> getCompliance (Route.routeId r) = Throw e).
    { intros r e. unfold f.
      destruct (getCompliance (Route.routeId r)); simpl; split; congruence. }
    split.
    + intros [e He].
      destruct (mapM f (filter (fun r => App.includes (App.poolSelection st) (Route.id r))
                               (App.routes st))) as [ms|e'] eqn:Em;
        [discriminate|].
      destruct (proj1 (mapM_Throw_iff f _) (ex_intro _ e' Em)) as (r & e'' & Hin & Hr).
      apply filter_In in Hin. destruct Hin as [Hin Hsel].
      exists r, e''. split; [exact Hin|].
      split; [now apply includes_true_iff | now apply Hf].
    + intros (r & e & Hin & Hsel & Hr).
      destruct (proj2 (mapM_Throw_iff
                         f (filter (fun r => App.includes (App.poolSelection st)
                                                          (Route.id r))
                                   (App.routes st)))) as [e' He'].
      { exists r, e. split; [|now apply Hf].
        apply filter_In. split; [exact Hin | now apply includes_true_iff]. }
      rewrite He'. simpl. eexists. reflexivity.
  - intros e He Hlen. unfold App.clickCreatePool, App.createPoolDisabled.
    assert (Hltb : (List.length (App.poolSelection st) <? 2)%nat = false)
      by (apply Nat.ltb_ge; exact Hlen).
    rewrite Hltb, He. reflexivity.
Qed.

(** X22.  A pool has exactly one allocation for each entry of the route
    list whose [id] is selected, named by its route identifier; selected
    identifiers that match no listed route are ignored. *)
Theorem handleCreatePool_allocates_selected_routes
        (getCompliance : string -> Result ComplianceResult.t)
        (routes : list Route.t) (poolSelection : list Z) (pool : App.PoolResult.t)
        (Hpool : App.handleCreatePool getCompliance routes poolSelection = Ok pool) :
  Permutation
    (map App.Allocation.id (App.PoolResult.results pool))
    (map Route.routeId (filter (fun r => App.includes poolSelection (Route.id r)) routes))
  /\ List.length (App.PoolResult.results pool)
     = List.length (filter (fun r => App.includes poolSelection (Route.id r)) routes).
Proof.
  rewrite handleCreatePool_members in Hpool.
  destruct (poolMembers getCompliance routes poolSelection) as [members|e] eqn:Hm;
    [|discriminate].
  simpl in Hpool. injection Hpool as <-. simpl.
  assert (Hids : map App.Member.routeId members
                 = map Route.routeId
                       (filter (fun r => App.includes poolSelection (Route.id r)) routes)).
  { unfold poolMembers in Hm.
    apply (mapM_Ok_map _ App.Member.routeId Route.routeId _ _) in Hm; [exact Hm|].
    intros r m Hr.
    destruct (getCompliance (Route.routeId r)); simpl in Hr; [|discriminate].
    now injection Hr as <-. }
  assert (Hperm : Permutation
                    (map App.Allocation.id
                         (map (fun m =>
                                 {| App.Allocation.id := App.Member.routeId m;
                                    App.Allocation.before := App.Member.adjustedCB m;
                                    App.Allocation.after :=
                                      if num_ge (reduce (fun acc cur =>
                                                           acc + App.Member.adjustedCB cur)
                                                        0 members) 0
                                      then (if num_lt (App.Member.adjustedCB m) 0
                                            then 0 else App.Member.adjustedCB m)
                                      else App.Member.adjustedCB m |})
                              (App.sort (fun a b => App.Member.adjustedCB b
                                                    - App.Member.adjustedCB a)
                                        members)))
                    (map Route.routeId
                         (filter (fun r => App.includes poolSelection (Route.id r))
                                 routes))).
  { rewrite map_map. simpl. rewrite <- Hids.
    apply Permutation_map. apply sort_Permutation. }
  split; [exact Hperm|].
  apply Permutation_length in Hperm. rewrite !length_map in Hperm.
  rewrite length_map. exact Hperm.
Qed.

Lemma handleCreatePool_allocates_selected_routes_witness :
  exists pool : App.PoolResult.t,
    App.handleCreatePool fixed_api (routes_of seed_db) [2; 7; 1]%Z = Ok pool
    /\ List.length (App.PoolResult.results pool) = 2%nat.
Proof.
  eexists. split; [reflexivity|].
  apply (handleCreatePool_allocates_selected_routes
           fixed_api (routes_of seed_db) [2; 7; 1]%Z).
  reflexivity.
Defined.

(** ** The header *)

Lemma compliance_ratio_bounds (total count : nat) :
  (0 < total)%nat -> (count <= total)%nat ->
  0 <= inject_Z (Z.of_nat count) / inject_Z (Z.of_nat total)
  /\ inject_Z (Z.of_nat count) / inject_Z (Z.of_nat total) <= 1.
Proof.
  intros Htotal Hcount.
  assert (Ht : 0 < inject_Z (Z.of_nat total)).
  { change 0 with (inject_Z 0). rewrite <- Zlt_Qlt. lia. }
  assert (Hc0 : 0 <= inject_Z (Z.of_nat count)).
  { change 0 with (inject_Z 0). rewrite <- Zle_Qle. lia. }
  assert (Hct : inject_Z (Z.of_nat count) <= inject_Z (Z.of_nat total)).
  { rewrite <- Zle_Qle. lia. }
  split.
  - apply Qle_shift_div_l; [exact Ht|]. lra.
  - apply Qle_shift_div_r; [exact Ht|]. lra.
Qed.

Lemma Math_round_percentage (q : Q) :
  0 <= q -> q <= 1 -> (0 <= Qfloor (q * 100 + (1 # 2)) <= 100)%Z.
Proof.
  intros H0 H1. split.
  - apply Z.le_trans with (Qfloor 0); [reflexivity|].
    apply Qfloor_resp_le. lra.
  - apply Z.le_trans with (Qfloor (201 # 2)); [|reflexivity].
    apply Qfloor_resp_le. lra.
Qed.

(** X24.  The compliance percentage of the header is an integer between 0
    and 100; it is 0 for an empty route list and when no route is
    compliant, and 100 when the list is not empty and every route is
    compliant. *)
Theorem headerCompliance_range (routes : list Route.t) :
  (0 <= App.headerCompliance routes <= 100)%Z
  /\ (routes = [] -> App.headerCompliance routes = 0%Z)
  /\ (Forall (fun r => App.isCompliant r = false) routes ->
      App.headerCompliance routes = 0%Z)
  /\ (routes <> [] ->
      Forall (fun r => App.isCompliant r = true) routes ->
      App.headerCompliance routes = 100%Z).
Proof.
  unfold App.headerCompliance, App.Header_compliance, App.Math_round.
  pose proof (filter_length_le App.isCompliant routes) as Hle.
  destruct (0 <? List.length routes)%nat eqn:Hpos.
  - apply Nat.ltb_lt in Hpos.
    destruct (compliance_ratio_bounds _ _ Hpos Hle) as [H0 H1].
    set (ratio := inject_Z (Z.of_nat (List.length (filter App.isCompliant routes)))
                  / inject_Z (Z.of_nat (List.length routes))) in *.
    split; [|split; [|split]].
    + apply (Math_round_percentage ratio H0 H1).
    + intros ->. simpl in Hpos. lia.
    + intro Hnone.
      assert (Hfilter : filter App.isCompliant routes = []).
      { clear -Hnone. induction Hnone as [|r rs Hr _ IH]; simpl; [reflexivity|].
        now rewrite Hr. }
      assert (Hratio : ratio == 0).
      { unfold ratio. rewrite Hfilter. simpl. unfold Qdiv. ring. }
      rewrite Hratio. reflexivity.
    + intros _ Hall.
      assert (Hfilter : filter App.isCompliant routes = routes).
      { clear -Hall. induction Hall as [|r rs Hr _ IH]; simpl; [reflexivity|].
        now rewrite Hr, IH. }
      assert (Hratio : ratio == 1).
      { unfold ratio. rewrite Hfilter. unfold Qdiv. apply Qmult_inv_r.
        intro Hz. unfold Qeq in Hz. simpl in Hz. lia. }
      rewrite Hratio. reflexivity.
  - split; [lia|]. split; [reflexivity|]. split; [reflexivity|].
    intros Hne _. apply Nat.ltb_ge in Hpos.
    destruct routes; [now exfalso | simpl in Hpos; lia].
Qed.

(** ** The comparison chart *)

Lemma find_Some_first {A : Type} (p : A -> bool) (l : list A) (x : A) :
  find p l = Some x -> In x l /\ p x = true.
Proof. apply find_some. Qed.

(** X25.  Without a flagged route the comparison chart has no row.
    Otherwise its baseline is a flagged route of the list, the first one;
    the chart has one row for each listed route whose [id] differs from the
    baseline's, in the order of the list, and every row carries the
    baseline's GHG intensity and the target 89.3368; with pairwise distinct
    [id]s that is every route but one. *)
Theorem comparisonData_rows (routes : list Route.t) :
  match App.baselineRoute routes with
  | None =>
      App.comparisonData routes = []
      /\ Forall (fun r => Route.isBaseline r = false) routes
  | Some b =>
      In b routes
      /\ Route.isBaseline b = true
      /\ map App.ComparisonDatum.name (App.comparisonData routes)
         = map Route.routeId
               (filter (fun r => negb (Z.eqb (Route.id r) (Route.id b))) routes)
      /\ map App.ComparisonDatum.ghg (App.comparisonData routes)
         = map Route.ghgIntensity
               (filter (fun r => negb (Z.eqb (Route.id r) (Route.id b))) routes)
      /\ Forall (fun d => App.ComparisonDatum.baseline d = Route.ghgIntensity b
                          /\ App.ComparisonDatum.target d = 89.3368)
                (App.comparisonData routes)
      /\ (NoDup (map Route.id routes) ->
          S (List.length (App.comparisonData routes)) = List.length routes)
  end.
Proof.
  unfold App.comparisonData.
  destruct (App.baselineRoute routes) as [b|] eqn:Hb.
  - unfold App.baselineRoute in Hb.
    destruct (find_Some_first _ _ _ Hb) as [Hin Hflag].
    split; [exact Hin|]. split; [exact Hflag|].
    split; [now rewrite map_map|]. split; [now rewrite map_map|].
    split.
    + apply Forall_map, Forall_forall. intros r _. simpl. split; reflexivity.
    + intro Hnd. rewrite length_map.
      clear Hb Hflag. induction routes as [|r rs IH]; simpl; [contradiction|].
      inversion Hnd as [|? ? Hnotin Hnd']; subst.
      destruct Hin as [->|Hin].
      * rewrite Z.eqb_refl. simpl. f_equal.
        clear IH Hnd Hnd'. induction rs as [|r rs IH]; simpl; [reflexivity|].
        destruct (Z.eqb (Route.id r) (Route.id b)) eqn:E.
        -- apply Z.eqb_eq in E. exfalso. apply Hnotin. simpl. auto.
        -- simpl. f_equal. apply IH. simpl in Hnotin. tauto.
      * destruct (Z.eqb (Route.id r) (Route.id b)) eqn:E.
        -- apply Z.eqb_eq in E. exfalso. apply Hnotin. rewrite E. now apply in_map.
        -- simpl. f_equal. now apply IH.
  - split; [reflexivity|].
    unfold App.baselineRoute in Hb.
    apply Forall_forall. intros r Hr.
    apply not_true_iff_false. intro Hflag.
    rewrite (find_none _ _ Hb r Hr) in Hflag. discriminate.
Qed.


(** * The route list *)

Section OrderBy.

Variables A K : Type.
Variable le : K -> K -> bool.
Variable key : A -> K.
Hypothesis le_total : forall a b : K, le a b = true \/ le b a = true.

Lemma order_insert_Permutation (x : A) (l : list A) :
  Permutation (order_insert le key x l) (x :: l).
Proof.
  induction l as [|y l IH]; simpl; [reflexivity|].
  destruct (le (key x) (key y)); [reflexivity|].
  rewrite IH. apply perm_swap.
Qed.

Lemma order_by_Permutation (l : list A) : Permutation (order_by le key l) l.
Proof.
  unfold order_by.
  induction l as [|x l IH]; simpl; [reflexivity|].
  rewrite order_insert_Permutation. now constructor.
Qed.

Lemma order_insert_Sorted (x : A) (l : list A) :
  Sorted (fun a b => le (key a) (key b) = true) l ->
  Sorted (fun a b => le (key a) (key b) = true) (order_insert le key x l).
Proof.
  induction l as [|y l IH]; simpl; intro Hs.
  - repeat constructor.
  - inversion Hs as [|? ? Hl Hhd]; subst.
    destruct (le (key x) (key y)) eqn:E.
    + constructor; [exact Hs|]. now constructor.
    + constructor; [now apply IH|].
      assert (Hyx : le (key y) (key x) = true)
        by (destruct (le_total (key x) (key y)); congruence).
      destruct l as [|z l]; simpl.
      * now constructor.
      * destruct (le (key x) (key z)); constructor;
          [exact Hyx | now inversion Hhd].
Qed.

Lemma order_by_Sorted (l : list A) :
  Sorted (fun a b => le (key a) (key b) = true) (order_by le key l).
Proof.
  unfold order_by.
  induction l as [|x l IH]; simpl; [constructor|].
  now apply order_insert_Sorted.
Qed.

End OrderBy.

Lemma Sorted_map {A B : Type} (R : B -> B -> Prop) (f : A -> B) (l : list A) :
  Sorted (fun a b => R (f a) (f b)) l -> Sorted R (map f l).
Proof.
  induction 1 as [|a l Hs IH Hhd]; simpl; constructor; [exact IH|].
  destruct Hhd; simpl; now constructor.
Qed.

(** X26.  Under a total collation of [route_id], [findAll] returns every
    stored route exactly once, none that is not stored, in ascending order
    of route identifier. *)
Theorem findAll_sorted_permutation
        (collation : string -> string -> bool) (db : Database)
        (Htotal : forall a b : string, collation a b = true \/ collation b a = true) :
  Permutation (PostgresRouteAdapter.findAll collation db)
              (map PostgresRouteAdapter.mapRowToRoute (routes db))
  /\ Sorted (fun a b => collation (Route.routeId a) (Route.routeId b) = true)
            (PostgresRouteAdapter.findAll collation db).
Proof.
  unfold PostgresRouteAdapter.findAll. split.
  - apply Permutation_map. apply order_by_Permutation.
  - apply Sorted_map.
    apply (order_by_Sorted _ _ collation RouteRow.route_id Htotal).
Qed.

Lemma findAll_sorted_permutation_witness :
  let db := PostgresRouteAdapter.with_routes seed_db (rev seed_routes) in
  (forall a b : string, String.leb a b = true \/ String.leb b a = true)
  /\ Permutation (PostgresRouteAdapter.findAll String.leb db)
                 (map PostgresRouteAdapter.mapRowToRoute (routes db))
  /\ map Route.routeId (PostgresRouteAdapter.findAll String.leb db)
     = ["R001"; "R002"; "R003"; "R004"; "R005"]%string.
Proof.
  intro db.
  split; [exact String.leb_total|].
  split; [|reflexivity].
  exact (proj1 (findAll_sorted_permutation String.leb db String.leb_total)).
Defined.

(** ** Reading the baseline *)

(** ** The balance on a pooling card *)




(** * Properties of the code as executed *)

(** ** The order of binary64 values *)


Lemma le_zero_not_lt (x : Binary64.t) :
  Binary64.le Binary64.zero x = true -> Binary64.lt x Binary64.zero = false.
Proof.
  destruct x as [s|s| |s m e]; try destruct s; cbv; congruence.
Qed.

(** The comparison of two finite values of one sign: by exponent, then by
    mantissa. *)
Lemma finite_compare_Lt (e1 e2 : Z) (m1 m2 : positive) :
  match Z.compare e1 e2 with
  | Lt => Lt
  | Gt => Gt
  | Eq => Pos.compare_cont Eq m1 m2
  end = Lt
  <-> (e1 < e2)%Z \/ (e1 = e2 /\ (m1 < m2)%positive).
Proof.
  change (Pos.compare_cont Eq m1 m2) with (Pos.compare m1 m2).
  destruct (Z.compare_spec e1 e2); destruct (Pos.compare_spec m1 m2);
    split; intro H'; try discriminate; try reflexivity; try lia.
Qed.

Lemma finite_compare_Eq (e1 e2 : Z) (m1 m2 : positive) :
  match Z.compare e1 e2 with
  | Lt => Lt
  | Gt => Gt
  | Eq => Pos.compare_cont Eq m1 m2
  end = Eq
  <-> e1 = e2 /\ m1 = m2.
Proof.
  change (Pos.compare_cont Eq m1 m2) with (Pos.compare m1 m2).
  destruct (Z.compare_spec e1 e2); destruct (Pos.compare_spec m1 m2);
    split; intro H'; try discriminate; try reflexivity; try lia.
Qed.

Lemma finite_compare_Gt (e1 e2 : Z) (m1 m2 : positive) :
  match Z.compare e1 e2 with
  | Lt => Lt
  | Gt => Gt
  | Eq => Pos.compare_cont Eq m1 m2
  end = Gt
  <-> (e2 < e1)%Z \/ (e1 = e2 /\ (m2 < m1)%positive).
Proof.
  change (Pos.compare_cont Eq m1 m2) with (Pos.compare m1 m2).
  destruct (Z.compare_spec e1 e2); destruct (Pos.compare_spec m1 m2);
    split; intro H'; try discriminate; try reflexivity; try lia.
Qed.

Lemma le_order_key (x y : Binary64.t) :
  Binary64.le x y = true
  <-> exists a b, order_key x = Some a /\ order_key y = Some b /\ key_le a b.
Proof.
  unfold Binary64.le, SFleb.
  destruct x as [sx|sx| |sx mx ex], y as [sy|sy| |sy my ey];
    try destruct sx; try destruct sy; simpl;
      try (split; [intros _; eexists; eexists; split; [reflexivity|];
                   split; [reflexivity|]; simpl; lia
                  | reflexivity]);
      try (split; [discriminate
                  | intros (a & b & [= <-] & [= <-] & H); simpl in H; lia]);
      try (split; [discriminate | intros (a & b & Ha & Hb & _); discriminate]).
  - (* both negative *)
    pose proof (finite_compare_Lt ex ey mx my) as HLt.
    pose proof (finite_compare_Eq ex ey mx my) as HEq.
    pose proof (finite_compare_Gt ex ey mx my) as HGt.
    destruct (match Z.compare ex ey with
              | Lt => Lt
              | Gt => Gt
              | Eq => Pos.compare_cont Eq mx my
              end) eqn:E.
    + destruct (Z.compare ex ey) eqn:Ez; try discriminate.
      rewrite E. simpl.
      split; [|reflexivity]. intros _.
      destruct (proj1 HEq eq_refl) as [-> ->].
      eexists. eexists. split; [reflexivity|]. split; [reflexivity|]. simpl. lia.
    + assert (Hm : match Z.compare ex ey with
                   | Lt => Gt
                   | Gt => Lt
                   | Eq => CompOpp (Pos.compare_cont Eq mx my)
                   end = Gt).
      { destruct (Z.compare ex ey); try discriminate; [now rewrite E | reflexivity]. }
      rewrite Hm. split; [discriminate|].
      intros (a & b & [= <-] & [= <-] & H). simpl in H.
      destruct (proj1 HLt eq_refl) as [H'|[H1 H2]]; lia.
    + assert (Hm : match Z.compare ex ey with
                   | Lt => Gt
                   | Gt => Lt
                   | Eq => CompOpp (Pos.compare_cont Eq mx my)
                   end = Lt).
      { destruct (Z.compare ex ey); try discriminate; [now rewrite E | reflexivity]. }
      rewrite Hm. split; [|reflexivity]. intros _.
      eexists. eexists. split; [reflexivity|]. split; [reflexivity|]. simpl.
      destruct (proj1 HGt eq_refl) as [H'|[H1 H2]]; lia.
  - (* both positive *)
    pose proof (finite_compare_Lt ex ey mx my) as HLt.
    pose proof (finite_compare_Eq ex ey mx my) as HEq.
    pose proof (finite_compare_Gt ex ey mx my) as HGt.
    destruct (match Z.compare ex ey with
              | Lt => Lt
              | Gt => Gt
              | Eq => Pos.compare_cont Eq mx my
              end) eqn:E.
    + split; [|reflexivity]. intros _.
      destruct (proj1 HEq eq_refl) as [-> ->].
      eexists. eexists. split; [reflexivity|]. split; [reflexivity|]. simpl. lia.
    + split; [|reflexivity]. intros _.
      eexists. eexists. split; [reflexivity|]. split; [reflexivity|]. simpl.
      destruct (proj1 HLt eq_refl) as [H'|[H1 H2]]; lia.
    + split; [discriminate|].
      intros (a & b & [= <-] & [= <-] & H). simpl in H.
      destruct (proj1 HGt eq_refl) as [H'|[H1 H2]]; lia.
Qed.

Lemma key_le_trans (a b c : Z * Z * Z) : key_le a b -> key_le b c -> key_le a c.
Proof.
  destruct a as [[a1 a2] a3], b as [[b1 b2] b3], c as [[c1 c2] c3]. simpl. lia.
Qed.

Lemma key_le_total (a b : Z * Z * Z) : key_le a b \/ key_le b a.
Proof.
  destruct a as [[a1 a2] a3], b as [[b1 b2] b3]. simpl. lia.
Qed.

Lemma le_trans (x y z : Binary64.t) :
  Binary64.le x y = true -> Binary64.le y z = true -> Binary64.le x z = true.
Proof.
  rewrite !le_order_key.
  intros (a & b & Ha & Hb & Hab) (b' & c & Hb' & Hc & Hbc).
  rewrite Hb in Hb'. injection Hb' as <-.
  exists a, c. split; [exact Ha|]. split; [exact Hc|].
  now apply key_le_trans with b.
Qed.

Lemma le_total (x y : Binary64.t) :
  Binary64.le x x = true -> Binary64.le y y = true ->
  Binary64.le x y = true \/ Binary64.le y x = true.
Proof.
  rewrite !le_order_key.
  intros (a & a' & Ha & _ & _) (b & b' & Hb & _ & _).
  destruct (key_le_total a b) as [H|H]; [left | right]; eauto 6.
Qed.

(** ** The Calculator, as executed *)

Lemma exec_findByRouteId_unique (db : Exec.Database) (row : RouteRow.t) :
  Exec.route_id_unique db ->
  In row (Exec.routes db) ->
  Exec.PostgresRouteAdapter.findByRouteId db (RouteRow.route_id row)
  = Some (Exec.PostgresRouteAdapter.mapRowToRoute row).
Proof.
  unfold Exec.route_id_unique, Exec.PostgresRouteAdapter.findByRouteId.
  induction (Exec.routes db) as [|r rs IH]; simpl; intros Hnd Hin; [contradiction|].
  inversion Hnd as [|? ? Hnotin Hnd']; subst.
  destruct Hin as [->|Hin].
  - now rewrite String.eqb_refl.
  - destruct (String.eqb (RouteRow.route_id r) (RouteRow.route_id row)) eqn:E.
    + apply String.eqb_eq in E. exfalso. apply Hnotin. rewrite E.
      now apply in_map.
    + now apply IH.
Qed.

Lemma exec_seed_route_id_unique : Exec.route_id_unique Exec.seed_db.
Proof.
  unfold Exec.route_id_unique; simpl.
  repeat constructor; simpl; intuition discriminate.
Qed.

(** C1, as stated, does not hold.  For the seeded route R002 (GHG intensity
    88.0, 4800 t of fuel) the raw balance the code returns is a binary64
    value strictly below (89.3368 - 88.0) x (4800 x 41000) = 263,082,240;
    it prints as 263082239.99999934. *)
Lemma calculateCB_R002_raw_balance_is_rounded :
  exists (result : Exec.ComplianceResult.t) (q : Q),
    Exec.ComplianceService.calculateCB Exec.seed_db "R002" 2024 = Normal result
    /\ Binary64.to_Q (Exec.ComplianceResult.cb result) = Some q
    /\ q < (89.3368 - 88.0) * (4800 * 41000)
    /\ ~ q == (89.3368 - 88.0) * (4800 * 41000)
    /\ Binary64.toDecimal (Exec.ComplianceResult.cb result)
       = Some 263082239.99999934.
Proof.
  eexists. eexists.
  split; [vm_compute; reflexivity|].
  split; [vm_compute; reflexivity|].
  split; [vm_compute; reflexivity|].
  split; [vm_compute; discriminate|].
  vm_compute; reflexivity.
Qed.

(** C1, amended.  For every route of the [routes] table, [calculateCB]
    returns a result whose raw compliance balance is the binary64 product
    of (target minus GHG intensity) and the energy in scope, the energy in
    scope being the binary64 product of the fuel consumption and the one
    constant 41000, whatever the fuel type; each of the three operations
    rounds to the nearest binary64 value, and the operands are the binary64
    values nearest to 89.3368 and to the decimals stored for the route. *)
Theorem calculateCB_raw_formula_binary64
        (db : Exec.Database) (row : RouteRow.t) (year : Z)
        (Huniq : Exec.route_id_unique db) (Hrow : In row (Exec.routes db)) :
  (exists lcv : Q, Binary64.to_Q Exec.CONSTANTS.LCV = Some lcv /\ lcv == 41000)
  /\ exists result : Exec.ComplianceResult.t,
      Exec.ComplianceService.calculateCB db (RouteRow.route_id row) year = Normal result
      /\ Exec.ComplianceResult.cb result
         = Binary64.mul
             (Binary64.sub (Binary64.of_Q 89.3368)
                           (Binary64.of_Q (RouteRow.ghg_intensity row)))
             (Binary64.mul (Binary64.of_Q (RouteRow.fuel_consumption row))
                           (Binary64.of_Q 41000)).
Proof.
  split; [eexists; split; [vm_compute; reflexivity | reflexivity]|].
  unfold Exec.ComplianceService.calculateCB.
  rewrite (exec_findByRouteId_unique db row Huniq Hrow).
  eexists; split; reflexivity.
Qed.

Lemma calculateCB_raw_formula_binary64_witness :
  let row := RouteRow.mk 2 "R002" "BulkCarrier" "LNG" 2024 88.0 4800 11500 4200 false in
  Exec.route_id_unique Exec.seed_db
  /\ In row (Exec.routes Exec.seed_db)
  /\ exists result : Exec.ComplianceResult.t,
      Exec.ComplianceService.calculateCB Exec.seed_db "R002" 2024 = Normal result
      /\ Exec.ComplianceResult.cb result
         = Binary64.mul (Binary64.sub (Binary64.of_Q 89.3368) (Binary64.of_Q 88.0))
                        (Binary64.mul (Binary64.of_Q 4800) (Binary64.of_Q 41000))
      /\ Exec.ComplianceResult.cb result = S754_finite false 8827575132487658 (-25).
Proof.
  intro row.
  assert (Hin : In row (Exec.routes Exec.seed_db)) by (simpl; tauto).
  split; [exact exec_seed_route_id_unique|].
  split; [exact Hin|].
  destruct (calculateCB_raw_formula_binary64
              Exec.seed_db row 2024 exec_seed_route_id_unique Hin)
    as (_ & result & Hres & Hcb).
  exists result. split; [exact Hres|]. split; [exact Hcb|].
  rewrite Hcb. vm_compute. reflexivity.
Defined.

(** C8, amended.  Whatever the years of two stored routes and whatever the
    years asked for, routes with the same GHG intensity and the same fuel
    consumption get the same raw balance, computed in binary64 from the one
    constant 89.3368. *)
Theorem calculateCB_target_is_one_constant_binary64
        (db db' : Exec.Database) (routeId routeId' : string) (year year' : Z)
        (route route' : Exec.Route.t)
        (Hroute : Exec.PostgresRouteAdapter.findByRouteId db routeId = Some route)
        (Hroute' : Exec.PostgresRouteAdapter.findByRouteId db' routeId' = Some route')
        (Hghg : Exec.Route.ghgIntensity route = Exec.Route.ghgIntensity route')
        (Hfuel : Exec.Route.fuelConsumption route = Exec.Route.fuelConsumption route') :
  exists result result' : Exec.ComplianceResult.t,
    Exec.ComplianceService.calculateCB db routeId year = Normal result
    /\ Exec.ComplianceService.calculateCB db' routeId' year' = Normal result'
    /\ Exec.ComplianceResult.cb result
       = Binary64.mul
           (Binary64.sub (Binary64.of_Q 89.3368) (Exec.Route.ghgIntensity route))
           (Binary64.mul (Exec.Route.fuelConsumption route) (Binary64.of_Q 41000))
    /\ Exec.ComplianceResult.cb result' = Exec.ComplianceResult.cb result.
Proof.
  unfold Exec.ComplianceService.calculateCB. rewrite Hroute, Hroute'.
  eexists. eexists. split; [reflexivity|]. split; [reflexivity|]. simpl.
  split; [reflexivity|].
  now rewrite Hghg, Hfuel.
Qed.

Lemma calculateCB_target_is_one_constant_binary64_witness :
  exists (route route' : Exec.Route.t) (result result' : Exec.ComplianceResult.t),
    Exec.PostgresRouteAdapter.findByRouteId Exec.two_year_db "V24" = Some route
    /\ Exec.PostgresRouteAdapter.findByRouteId Exec.two_year_db "V30" = Some route'
    /\ Exec.Route.year route = 2024%Z
    /\ Exec.Route.year route' = 2030%Z
    /\ Exec.ComplianceService.calculateCB Exec.two_year_db "V24" 2024 = Normal result
    /\ Exec.ComplianceService.calculateCB Exec.two_year_db "V30" 2030 = Normal result'
    /\ Exec.ComplianceResult.cb result' = Exec.ComplianceResult.cb result
    /\ Binary64.toDecimal (Exec.ComplianceResult.cb result') = Some 263082239.99999934.
Proof.
  eexists. eexists.
  destruct (calculateCB_target_is_one_constant_binary64
              Exec.two_year_db Exec.two_year_db "V24" "V30" 2024 2030 _ _
              eq_refl eq_refl eq_refl eq_refl)
    as (result & result' & H & H' & Hformula & Hcb).
  exists result, result'.
  repeat (split; [reflexivity|]).
  split; [exact H|]. split; [exact H'|]. split; [exact Hcb|].
  rewrite Hcb, Hformula. vm_compute. reflexivity.
Defined.

(** ** The Ledger, as executed *)

Lemma bind_int4_Normal (z y : Z) :
  Pg.bind_int4 z = Normal y <-> Pg.int4 z = true /\ y = z.
Proof.
  unfold Pg.bind_int4.
  destruct (Pg.int4 z).
  - split; [intros [= <-]; auto | intros [_ ->]; reflexivity].
  - destruct (Z.abs z <? 1000000000000000000000)%Z;
      (split; [discriminate | intros [H _]; discriminate]).
Qed.

Lemma bind_int4_Abrupt (z : Z) (e : Exception) :
  Pg.bind_int4 z = Abrupt e ->
  Pg.int4 z = false /\ exists sqlstate, e = DatabaseError sqlstate.
Proof.
  unfold Pg.bind_int4.
  destruct (Pg.int4 z); [discriminate|].
  destruct (Z.abs z <? 1000000000000000000000)%Z;
    intros [= <-]; split; try reflexivity; eexists; reflexivity.
Qed.




















(** ** Banking again and again, as executed *)




(** ** The baseline flag, as executed *)

(** X5.  [setBaseline] throws exactly when the [id] does not fit an INT or
    no route has it: a database error in the first case, an [Error] with
    the message "Route not found" in the second; and the rolled-back
    transaction leaves the database as it is. *)
Theorem setBaseline_fails_as_executed (db : Exec.Database) (id : Z) :
  ((exists e, fst (Exec.PostgresRouteAdapter.setBaseline db id) = Abrupt e)
   <-> Pg.int4 id = false \/ ~ In id (map RouteRow.id (Exec.routes db)))
  /\ (fst (Exec.PostgresRouteAdapter.setBaseline db id) = Abrupt (Error "Route not found")
      <-> Pg.int4 id = true /\ ~ In id (map RouteRow.id (Exec.routes db)))
  /\ ((exists sqlstate,
          fst (Exec.PostgresRouteAdapter.setBaseline db id)
          = Abrupt (DatabaseError sqlstate))
      <-> Pg.int4 id = false)
  /\ (forall e : Exception,
         fst (Exec.PostgresRouteAdapter.setBaseline db id) = Abrupt e ->
         snd (Exec.PostgresRouteAdapter.setBaseline db id) = db).
Proof.
  rewrite <- rows_with_id_nil_iff.
  unfold Exec.PostgresRouteAdapter.setBaseline.
  destruct (Pg.bind_int4 id) as [id'|e0] eqn:Hbind.
  - apply bind_int4_Normal in Hbind. destruct Hbind as [Hid ->].
    rewrite Hid.
    destruct (filter (fun row => Z.eqb (RouteRow.id row) id) (Exec.routes db))
      as [|r rs]; simpl.
    + split; [split; [auto | intros _; eexists; reflexivity]|].
      split; [split; auto|].
      split; [split; [intros [s Hs]; discriminate | discriminate]|].
      reflexivity.
    + split; [split; [intros [e He]; discriminate | intros [H|H]; discriminate]|].
      split; [split; [discriminate | intros [_ H]; discriminate]|].
      split; [split; [intros [s Hs]; discriminate | discriminate]|].
      discriminate.
  - apply bind_int4_Abrupt in Hbind. destruct Hbind as [Hid (sqlstate & ->)].
    rewrite Hid. simpl.
    split; [split; [auto | intros _; eexists; reflexivity]|].
    split; [split; [discriminate | intros [H _]; discriminate]|].
    split; [split; [reflexivity | intros _; eexists; reflexivity]|].
    reflexivity.
Qed.

(** X27.  [getBaseline] throws a database error exactly when the year does
    not fit an INT.  Otherwise it returns a stored route that carries the
    flag and is of the year asked for, or [null] when that year has no
    flagged route; and when at most one route per year is flagged, every
    flagged route of a year that fits an INT is the one [getBaseline]
    returns for its year. *)
Theorem getBaseline_as_executed (db : Exec.Database) (year : Z) :
  match Exec.PostgresRouteAdapter.getBaseline db year with
  | Normal (Some route) =>
      Pg.int4 year = true
      /\ Exec.Route.isBaseline route = true
      /\ Exec.Route.year route = year
      /\ In route (map Exec.PostgresRouteAdapter.mapRowToRoute (Exec.routes db))
  | Normal None =>
      Pg.int4 year = true
      /\ forall row, In row (Exec.routes db) ->
                     RouteRow.is_baseline row = true -> RouteRow.year row <> year
  | Abrupt e =>
      Pg.int4 year = false /\ exists sqlstate, e = DatabaseError sqlstate
  end
  /\ (Exec.one_baseline_per_year db ->
      forall row, In row (Exec.routes db) ->
                  RouteRow.is_baseline row = true ->
                  RouteRow.year row = year ->
                  Pg.int4 year = true ->
                  Exec.PostgresRouteAdapter.getBaseline db year
                  = Normal (Some (Exec.PostgresRouteAdapter.mapRowToRoute row))).
Proof.
  unfold Exec.PostgresRouteAdapter.getBaseline.
  split.
  - destruct (Pg.bind_int4 year) as [year'|e0] eqn:Hbind; simpl.
    + apply bind_int4_Normal in Hbind. destruct Hbind as [Hint ->].
      destruct (filter (fun row => RouteRow.is_baseline row
                                   && Z.eqb (RouteRow.year row) year) (Exec.routes db))
        as [|r rs] eqn:Hf.
      * split; [exact Hint|].
        intros row Hin Hflag Hyear.
        assert (Hr : In row (filter (fun row => RouteRow.is_baseline row
                                                && Z.eqb (RouteRow.year row) year)
                                    (Exec.routes db))).
        { apply filter_In. split; [exact Hin|].
          rewrite Hflag. simpl. now apply Z.eqb_eq. }
        rewrite Hf in Hr. contradiction.
      * assert (Hr : In r (filter (fun row => RouteRow.is_baseline row
                                              && Z.eqb (RouteRow.year row) year)
                                  (Exec.routes db)))
          by (rewrite Hf; simpl; auto).
        apply filter_In in Hr. destruct Hr as [Hin Hp].
        apply andb_true_iff in Hp. destruct Hp as [Hflag Hyear].
        apply Z.eqb_eq in Hyear.
        split; [exact Hint|]. split; [exact Hflag|]. split; [exact Hyear|].
        now apply in_map.
    + now apply bind_int4_Abrupt in Hbind.
  - intros Hone row Hin Hflag Hyear Hint.
    rewrite (proj2 (bind_int4_Normal year year) (conj Hint eq_refl)). simpl.
    specialize (Hone year). unfold baselines_of_year in Hone.
    assert (Hr : In row (filter (fun row => RouteRow.is_baseline row
                                            && Z.eqb (RouteRow.year row) year)
                                (Exec.routes db))).
    { apply filter_In. split; [exact Hin|].
      rewrite Hflag. simpl. now apply Z.eqb_eq. }
    destruct (filter (fun row => RouteRow.is_baseline row
                                 && Z.eqb (RouteRow.year row) year) (Exec.routes db))
      as [|r [|r' rs]]; simpl in Hone, Hr.
    + contradiction.
    + destruct Hr as [->|[]]. reflexivity.
    + lia.
Qed.

(** ** The comparator of [sort] *)

Lemma digits2_pos_size (m : positive) : digits2_pos m = Pos.size m.
Proof. induction m; simpl; congruence. Qed.

(** [2^(d-1) <= m < 2^d] for the number [d] of binary digits of [m]. *)
Lemma digits2_pos_bounds (m : positive) :
  (2 ^ (Zpos (digits2_pos m) - 1) <= Zpos m < 2 ^ Zpos (digits2_pos m))%Z.
Proof.
  rewrite digits2_pos_size.
  pose proof (Pos.size_gt m) as Hgt.
  pose proof (Pos.size_le m) as Hle.
  assert (Hgt' : (Zpos m < Zpos (2 ^ Pos.size m))%Z) by exact Hgt.
  assert (Hle' : (Zpos (2 ^ Pos.size m) <= Zpos (m~0))%Z) by exact Hle.
  rewrite Pos2Z.inj_pow in Hgt', Hle'.
  split; [|exact Hgt'].
  assert (H2 : (2 ^ Zpos (Pos.size m) = 2 * 2 ^ (Zpos (Pos.size m) - 1))%Z).
  { rewrite <- Z.pow_succ_r by lia. f_equal. lia. }
  rewrite H2 in Hle'. rewrite Pos2Z.inj_xO in Hle'. lia.
Qed.

Lemma shr_1_div2 (mrs : shr_record) :
  (0 <= shr_m mrs)%Z -> shr_m (shr_1 mrs) = Z.div2 (shr_m mrs).
Proof.
  destruct mrs as [m r s]. simpl.
  destruct m as [|p|p]; [reflexivity| |lia].
  intros _. destruct p; reflexivity.
Qed.

Lemma iter_shr_1_div (p : positive) (mrs : shr_record) :
  (0 <= shr_m mrs)%Z ->
  shr_m (iter_pos shr_1 p mrs) = (shr_m mrs / 2 ^ Zpos p)%Z.
Proof.
  revert mrs. induction p as [p IH|p IH|]; intros mrs Hm; cbn [iter_pos].
  - assert (H1 : (0 <= shr_m (shr_1 mrs))%Z).
    { rewrite shr_1_div2 by exact Hm. rewrite Z.div2_div. apply Z.div_pos; lia. }
    assert (H2 : (0 <= shr_m (iter_pos shr_1 p (shr_1 mrs)))%Z).
    { rewrite IH by exact H1. apply Z.div_pos; [exact H1|]. apply Z.pow_pos_nonneg; lia. }
    rewrite IH by exact H2. rewrite IH by exact H1.
    rewrite shr_1_div2 by exact Hm. rewrite Z.div2_div.
    rewrite !Z.div_div by (try apply Z.pow_pos_nonneg; lia).
    f_equal. rewrite Pos2Z.inj_xI.
    rewrite <- Z.pow_add_r by lia.
    rewrite <- (Z.pow_1_r 2) at 1. rewrite <- Z.pow_add_r by lia.
    f_equal. lia.
  - assert (H2 : (0 <= shr_m (iter_pos shr_1 p mrs))%Z).
    { rewrite IH by exact Hm. apply Z.div_pos; [exact Hm|]. apply Z.pow_pos_nonneg; lia. }
    rewrite IH by exact H2. rewrite IH by exact Hm.
    rewrite !Z.div_div by (try apply Z.pow_pos_nonneg; lia).
    f_equal. rewrite Pos2Z.inj_xO.
    rewrite <- Z.pow_add_r by lia. f_equal. lia.
  - rewrite shr_1_div2 by exact Hm. rewrite Z.div2_div. reflexivity.
Qed.

Lemma shr_record_of_loc_m (m : Z) (l : location) : shr_m (shr_record_of_loc m l) = m.
Proof. destruct l as [|[]]; reflexivity. Qed.

Lemma round_nearest_even_ge (m : Z) (l : location) : (m <= round_nearest_even m l)%Z.
Proof. destruct l as [|[]]; simpl; try destruct (Z.even m); lia. Qed.

(** Rounding a positive integer at an exponent not below the least one
    leaves a positive integer. *)
Lemma shr_fexp_positive (m : positive) (e : Z) (l : location) :
  (-1074 <= e)%Z ->
  (0 < shr_m (fst (shr_fexp Binary64.prec Binary64.emax (Zpos m) e l)))%Z
  /\ (-1074 <= snd (shr_fexp Binary64.prec Binary64.emax (Zpos m) e l))%Z.
Proof.
  intro He. unfold shr_fexp, shr, fexp, emin, Binary64.prec, Binary64.emax.
  cbn [Zdigits2].
  pose proof (digits2_pos_bounds m) as [Hlo _].
  destruct (Z.max (Zpos (digits2_pos m) + e - 53) (3 - 1024 - 53) - e)%Z as [|p|p] eqn:Hn;
    cbn [fst snd]; rewrite ?shr_record_of_loc_m; try (split; lia).
  rewrite iter_shr_1_div by (rewrite shr_record_of_loc_m; lia).
  rewrite shr_record_of_loc_m.
  split; [|lia].
  apply Z.div_str_pos. split; [apply Z.pow_pos_nonneg; lia|].
  apply Z.le_trans with (2 ^ (Zpos (digits2_pos m) - 1))%Z; [|exact Hlo].
  apply Z.pow_le_mono_r; lia.
Qed.

Lemma binary_round_aux_sign (sx : bool) (m : positive) (e : Z) (l : location) :
  (-1074 <= e)%Z ->
  Binary64.le (binary_round_aux Binary64.prec Binary64.emax sx (Zpos m) e l) Binary64.zero
  = sx
  /\ Binary64.isNaN (binary_round_aux Binary64.prec Binary64.emax sx (Zpos m) e l) = false.
Proof.
  intro He. unfold binary_round_aux.
  pose proof (shr_fexp_positive m e l He) as [Hm1 He1].
  destruct (shr_fexp Binary64.prec Binary64.emax (Zpos m) e l) as [mrs' e'].
  cbn [fst snd] in Hm1, He1.
  pose proof (round_nearest_even_ge (shr_m mrs') (loc_of_shr_record mrs')) as Hr.
  destruct (round_nearest_even (shr_m mrs') (loc_of_shr_record mrs')) as [|m1|m1];
    try lia.
  pose proof (shr_fexp_positive m1 e' loc_Exact He1) as [Hm2 He2].
  destruct (shr_fexp Binary64.prec Binary64.emax (Zpos m1) e' loc_Exact) as [mrs'' e''].
  cbn [fst snd] in Hm2, He2.
  destruct (shr_m mrs'') as [|m2|m2]; try lia.
  destruct (e'' <=? Binary64.emax - Binary64.prec)%Z; destruct sx; split; reflexivity.
Qed.

Lemma shl_align_exponent (m : positive) (e e' : Z) :
  (-1074 <= e)%Z -> (-1074 <= e')%Z -> (-1074 <= snd (shl_align m e e'))%Z.
Proof.
  intros He He'. unfold shl_align. destruct (e' - e)%Z; simpl; lia.
Qed.

Lemma binary_normalize_sign (M e : Z) :
  (-1074 <= e)%Z ->
  Binary64.le (binary_normalize Binary64.prec Binary64.emax M e false) Binary64.zero
  = (M <=? 0)%Z
  /\ Binary64.isNaN (binary_normalize Binary64.prec Binary64.emax M e false) = false.
Proof.
  intro He. unfold binary_normalize, binary_round.
  destruct M as [|m|m]; [split; reflexivity| |].
  - pose proof (shl_align_exponent
                  m e (fexp Binary64.prec Binary64.emax (Zpos (digits2_pos m) + e)) He)
      as Hs.
    destruct (shl_align m e _) as [mz ez]. cbn [snd] in Hs.
    apply binary_round_aux_sign. apply Hs.
    unfold fexp, emin, Binary64.prec, Binary64.emax. lia.
  - pose proof (shl_align_exponent
                  m e (fexp Binary64.prec Binary64.emax (Zpos (digits2_pos m) + e)) He)
      as Hs.
    destruct (shl_align m e _) as [mz ez]. cbn [snd] in Hs.
    apply binary_round_aux_sign. apply Hs.
    unfold fexp, emin, Binary64.prec, Binary64.emax. lia.
Qed.

Lemma bounded_canonical (m : positive) (e : Z) :
  bounded Binary64.prec Binary64.emax m e = true ->
  (-1074 <= e)%Z
  /\ (Zpos (digits2_pos m) <= 53)%Z
  /\ ((-1074 < e)%Z -> Zpos (digits2_pos m) = 53%Z).
Proof.
  unfold bounded, canonical_mantissa, fexp, emin, Binary64.prec, Binary64.emax.
  rewrite andb_true_iff, Z.eqb_eq. lia.
Qed.

Lemma shl_align_value (m : positive) (e ez : Z) :
  (ez <= e)%Z -> Zpos (fst (shl_align m e ez)) = (Zpos m * 2 ^ (e - ez))%Z.
Proof.
  intro Hle. unfold shl_align.
  destruct (ez - e)%Z as [|d|d] eqn:Hd; cbn [fst].
  - replace (e - ez)%Z with 0%Z by lia. lia.
  - lia.
  - change (Pos.iter xO m d) with (shift_pos d m).
    rewrite shift_pos_correct.
    replace (e - ez)%Z with (Zpos d) by lia.
    change (Z.pow_pos 2 d) with (2 ^ Zpos d)%Z. lia.
Qed.

(** Of two canonical values, the one of the smaller exponent is the
    smaller. *)
Lemma canonical_exponent_lt (m1 m2 : positive) (e1 e2 : Z) :
  bounded Binary64.prec Binary64.emax m1 e1 = true ->
  bounded Binary64.prec Binary64.emax m2 e2 = true ->
  (e1 < e2)%Z ->
  (Zpos m1 < Zpos m2 * 2 ^ (e2 - e1))%Z.
Proof.
  intros H1 H2 Hlt.
  apply bounded_canonical in H1. destruct H1 as (He1 & Hd1 & _).
  apply bounded_canonical in H2. destruct H2 as (_ & _ & Hd2).
  specialize (Hd2 ltac:(lia)).
  pose proof (digits2_pos_bounds m1) as [_ Hhi].
  pose proof (digits2_pos_bounds m2) as [Hlo _].
  rewrite Hd2 in Hlo.
  assert (Hp1 : (2 ^ Zpos (digits2_pos m1) <= 2 ^ 53)%Z)
    by (apply Z.pow_le_mono_r; lia).
  assert (Hp2 : (2 ^ 1 <= 2 ^ (e2 - e1))%Z) by (apply Z.pow_le_mono_r; lia).
  change (2 ^ 1)%Z with 2%Z in Hp2.
  change (2 ^ (53 - 1))%Z with 4503599627370496%Z in Hlo.
  change (2 ^ 53)%Z with 9007199254740992%Z in Hp1.
  nia.
Qed.

(** The sign of the exact difference of two canonical values decides their
    order. *)
Lemma finite_difference_order (sx sy : bool) (mx my : positive) (ex ey : Z) :
  bounded Binary64.prec Binary64.emax mx ex = true ->
  bounded Binary64.prec Binary64.emax my ey = true ->
  (cond_Zopp sy (Zpos (fst (shl_align my ey (Z.min ey ex))))
   - cond_Zopp sx (Zpos (fst (shl_align mx ex (Z.min ey ex)))) <=? 0)%Z
  = Binary64.le (S754_finite sy my ey) (S754_finite sx mx ex).
Proof.
  intros Hx Hy.
  apply eq_true_iff_eq. rewrite Z.leb_le, le_order_key.
  rewrite !shl_align_value by lia.
  pose proof (Pos2Z.is_pos mx) as Hmx. pose proof (Pos2Z.is_pos my) as Hmy.
  assert (Hcmp : (ey < ex /\ Zpos my < Zpos mx * 2 ^ (ex - ey)
                  \/ ex < ey /\ Zpos mx < Zpos my * 2 ^ (ey - ex)
                  \/ ex = ey)%Z).
  { destruct (Z.lt_total ey ex) as [H|[H|H]].
    - left. split; [exact H|]. now apply canonical_exponent_lt.
    - right. right. lia.
    - right. left. split; [exact H|]. now apply canonical_exponent_lt. }
  assert (Hkey : forall a b : Z * Z * Z,
             (exists a' b', Some a = Some a' /\ Some b = Some b' /\ key_le a' b')
             <-> key_le a b).
  { intros a b. split.
    - intros (a' & b' & [= <-] & [= <-] & H). exact H.
    - intro H. exists a, b. auto. }
  destruct Hcmp as [[Hlt Hv]|[[Hlt Hv]|Heq]].
  - rewrite Z.min_l by lia. replace (ey - ey)%Z with 0%Z by lia.
    rewrite Z.mul_1_r.
    destruct sx, sy; cbn [cond_Zopp order_key]; rewrite Hkey; cbn [key_le]; lia.
  - rewrite Z.min_r by lia. replace (ex - ex)%Z with 0%Z by lia.
    rewrite Z.mul_1_r.
    destruct sx, sy; cbn [cond_Zopp order_key]; rewrite Hkey; cbn [key_le]; lia.
  - subst ey. rewrite Z.min_id. replace (ex - ex)%Z with 0%Z by lia.
    rewrite !Z.mul_1_r.
    destruct sx, sy; cbn [cond_Zopp order_key]; rewrite Hkey; cbn [key_le]; lia.
Qed.

(** The comparator [b - a] of two numbers, read by [sort], is at most 0
    exactly when [b <= a]. *)
Lemma difference_orders (x y : Binary64.t) :
  valid_binary Binary64.prec Binary64.emax x = true ->
  valid_binary Binary64.prec Binary64.emax y = true ->
  Binary64.isNaN x = false ->
  Binary64.isNaN y = false ->
  Binary64.le (if Binary64.isNaN (Binary64.sub y x) then Binary64.zero
               else Binary64.sub y x)
              Binary64.zero
  = Binary64.le y x.
Proof.
  intros Hx Hy Hnx Hny.
  destruct x as [sx|sx| |sx mx ex]; try discriminate;
    destruct y as [sy|sy| |sy my ey]; try discriminate;
      try (destruct sx, sy; reflexivity);
      try (destruct sx; reflexivity);
      try (destruct sy; reflexivity).
  cbn [valid_binary] in Hx, Hy.
  unfold Binary64.sub, SFsub.
  pose proof (bounded_canonical _ _ Hx) as (Hex & _).
  pose proof (bounded_canonical _ _ Hy) as (Hey & _).
  destruct (binary_normalize_sign
              (cond_Zopp sy (Zpos (fst (shl_align my ey (Z.min ey ex))))
               - cond_Zopp sx (Zpos (fst (shl_align mx ex (Z.min ey ex)))))
              (Z.min ey ex) ltac:(lia))
    as [Hle Hnan].
  cbv zeta. rewrite Hnan, Hle.
  now apply finite_difference_order.
Qed.

Lemma le_refl_number (x : Binary64.t) :
  Binary64.isNaN x = false -> Binary64.le x x = true.
Proof.
  destruct x as [s|s| |s m e]; try discriminate; intros _;
    try (destruct s; reflexivity).
  unfold Binary64.le, SFleb, SFcompare.
  rewrite Z.compare_refl.
  change (Pos.compare_cont Eq m m) with (Pos.compare m m).
  rewrite Pos.compare_refl. destruct s; reflexivity.
Qed.

Lemma isNumber_iff (x : Binary64.t) :
  Binary64.isNumber x = true
  <-> valid_binary Binary64.prec Binary64.emax x = true /\ Binary64.isNaN x = false.
Proof.
  unfold Binary64.isNumber, Binary64.valid.
  rewrite andb_true_iff, negb_true_iff. reflexivity.
Qed.

Lemma SortCompare_difference {A : Type} (key : A -> Binary64.t) (a b : A) :
  Binary64.isNumber (key a) = true ->
  Binary64.isNumber (key b) = true ->
  Binary64.le
    (Exec.App.SortCompare (fun a b => Binary64.sub (key b) (key a)) a b)
    Binary64.zero
  = Binary64.le (key b) (key a).
Proof.
  intros Ha Hb. apply isNumber_iff in Ha, Hb.
  destruct Ha as [Hva Hna], Hb as [Hvb Hnb].
  unfold Exec.App.SortCompare. cbv zeta.
  now apply difference_orders.
Qed.

(** ** The Pool Aggregator, as executed *)

Lemma exec_handleCreatePool_members
      (getCompliance : string -> Completion Exec.ComplianceResult.t)
      (routes : list Exec.Route.t) (poolSelection : list Z) :
  Exec.App.handleCreatePool getCompliance routes poolSelection
  = (members <~ Exec.poolMembers getCompliance routes poolSelection ;;
     let totalCB := Binary64.sum (map Exec.App.Member.adjustedCB members) in
     Normal {| Exec.App.PoolResult.totalCB := totalCB;
               Exec.App.PoolResult.results :=
                 map (fun m =>
                        {| Exec.App.Allocation.id := Exec.App.Member.routeId m;
                           Exec.App.Allocation.before := Exec.App.Member.adjustedCB m;
                           Exec.App.Allocation.after :=
                             if Binary64.ge totalCB Binary64.zero
                             then (if Binary64.lt (Exec.App.Member.adjustedCB m)
                                                  Binary64.zero
                                   then Binary64.zero
                                   else Exec.App.Member.adjustedCB m)
                             else Exec.App.Member.adjustedCB m |})
                     (Exec.App.sort
                        (fun a b => Binary64.sub (Exec.App.Member.adjustedCB b)
                                                 (Exec.App.Member.adjustedCB a))
                        members);
               Exec.App.PoolResult.valid := Binary64.ge totalCB Binary64.zero |}).
Proof.
  unfold Exec.App.handleCreatePool, Exec.poolMembers.
  destruct (awaitAll _ _) as [members|e]; [|reflexivity].
  simpl.
  assert (Hsum : reduce (fun acc cur => Binary64.add acc (Exec.App.Member.adjustedCB cur))
                        Binary64.zero members
                 = Binary64.sum (map Exec.App.Member.adjustedCB members)).
  { unfold reduce, Binary64.sum. generalize Binary64.zero.
    induction members as [|m ms IH]; intro init; simpl; [reflexivity|apply IH]. }
  now rewrite Hsum.
Qed.

(** [x >= 0] holds of plus infinity and of the finite values that are not
    negative, and of nothing else. *)
Lemma ge_zero_iff (x : Binary64.t) :
  Binary64.ge x Binary64.zero = true
  <-> x = S754_infinity false \/ exists q : Q, Binary64.to_Q x = Some q /\ 0 <= q.
Proof.
  destruct x as [s|s| |s m e].
  - split; [|reflexivity]. intros _. right. exists 0. split; [reflexivity|lra].
  - destruct s; simpl.
    + split; [discriminate|]. intros [H|(q & H & _)]; discriminate.
    + split; [auto|reflexivity].
  - split; [discriminate|]. intros [H|(q & H & _)]; discriminate.
  - pose proof (Qpower_0_lt 2 e ltac:(lra)) as Hpow.
    assert (Hm : 0 < inject_Z (Zpos m)) by (unfold Qlt; simpl; lia).
    destruct s.
    + split; [discriminate|]. intros [H|(q & H & Hq)]; [discriminate|].
      simpl in H. injection H as <-. exfalso.
      assert (Hprod : 0 < inject_Z (Zpos m) * 2 ^ e) by now apply Qmult_lt_0_compat.
      lra.
    + split; [|reflexivity]. intros _. right. eexists. split; [reflexivity|].
      apply Qlt_le_weak. now apply Qmult_lt_0_compat.
Qed.

Lemma exec_insert_Permutation {A : Type} (comparefn : A -> A -> Binary64.t)
      (a : A) (l : list A) :
  Permutation (Exec.App.insert comparefn a l) (a :: l).
Proof.
  induction l as [|b l IH]; simpl; [reflexivity|].
  destruct (Binary64.le _ _); [reflexivity|].
  rewrite IH. apply perm_swap.
Qed.

Lemma exec_sort_Permutation {A : Type} (comparefn : A -> A -> Binary64.t) (l : list A) :
  Permutation (Exec.App.sort comparefn l) l.
Proof.
  induction l as [|a l IH]; simpl; [reflexivity|].
  unfold Exec.App.sort in *. simpl.
  rewrite exec_insert_Permutation. now constructor.
Qed.

Section ExecSortDescending.

Variable A : Type.
Variable key : A -> Binary64.t.

Lemma exec_insert_descending (a : A) (l : list A) :
  Binary64.isNumber (key a) = true ->
  Forall (fun x => Binary64.isNumber (key x) = true) l ->
  StronglySorted (Exec.descending_by key) l ->
  StronglySorted (Exec.descending_by key)
                 (Exec.App.insert (fun a b => Binary64.sub (key b) (key a)) a l).
Proof.
  intros Ha Hl Hs.
  induction l as [|b l IH]; simpl.
  - constructor; constructor.
  - inversion Hs as [|? ? Hsl Hb]; subst.
    inversion Hl as [|? ? Hnb Hnl]; subst.
    rewrite (SortCompare_difference key a b Ha Hnb).
    destruct (Binary64.le (key b) (key a)) eqn:E.
    + constructor; [exact Hs|].
      constructor; [exact E|].
      eapply Forall_impl; [|exact Hb].
      intros c Hc. unfold Exec.descending_by in *.
      now apply le_trans with (key b).
    + constructor; [now apply IH|].
      apply (Permutation_Forall (Permutation_sym (exec_insert_Permutation _ a l))).
      constructor; [|exact Hb].
      unfold Exec.descending_by.
      apply isNumber_iff in Ha, Hnb.
      destruct (le_total (key a) (key b)) as [H|H];
        try (apply le_refl_number; tauto); [exact H | congruence].
Qed.

Lemma exec_insert_numbers (a : A) (l : list A) :
  Binary64.isNumber (key a) = true ->
  Forall (fun x => Binary64.isNumber (key x) = true) l ->
  Forall (fun x => Binary64.isNumber (key x) = true)
         (Exec.App.insert (fun a b => Binary64.sub (key b) (key a)) a l).
Proof.
  intros Ha Hl.
  apply (Permutation_Forall (Permutation_sym (exec_insert_Permutation _ a l))).
  now constructor.
Qed.

Lemma exec_sort_descending (l : list A) :
  Forall (fun x => Binary64.isNumber (key x) = true) l ->
  StronglySorted (Exec.descending_by key)
                 (Exec.App.sort (fun a b => Binary64.sub (key b) (key a)) l).
Proof.
  unfold Exec.App.sort.
  induction l as [|a l IH]; simpl; intro Hl; [constructor|].
  inversion Hl as [|? ? Ha Hl']; subst.
  apply exec_insert_descending; [exact Ha| |now apply IH].
  clear IH Hl Ha.
  induction l as [|b l IH]; simpl; [constructor|].
  inversion Hl' as [|? ? Hb Hl'']; subst.
  apply exec_insert_numbers; [exact Hb | now apply IH].
Qed.

Lemma exec_descending_map {B : Type} (keyB : B -> Binary64.t) (f : A -> B) (l : list A) :
  (forall a, keyB (f a) = key a) ->
  StronglySorted (Exec.descending_by key) l ->
  StronglySorted (Exec.descending_by keyB) (map f l).
Proof.
  intros Hkey Hs.
  induction Hs as [|a l Hs IH Ha]; simpl; constructor; [exact IH|].
  apply Forall_map. eapply Forall_impl; [|exact Ha].
  intros b Hb. unfold Exec.descending_by in *. rewrite !Hkey. exact Hb.
Qed.

End ExecSortDescending.

(** C6, as stated, does not hold.  For members of 10^16, -1 and -10^16 the
    adjusted balances sum to -1, yet [handleCreatePool] reports a total of
    0 and a valid pool: the running binary64 sum loses the -1.  And for
    members of -0.1, -0.2 and 0.3 the reported total is -2^-54, about
    -5.55e-17, and the pool is reported invalid. *)
Lemma handleCreatePool_total_is_not_the_exact_sum :
  (exists (members : list Exec.App.Member.t) (pool : Exec.App.PoolResult.t)
          (q1 q2 q3 : Q),
      Exec.poolMembers Exec.cancelling_api (Exec.routes_of Exec.seed_db) [1%Z; 2%Z; 3%Z]
      = Normal members
      /\ map (fun m => Binary64.to_Q (Exec.App.Member.adjustedCB m)) members
         = [Some q1; Some q2; Some q3]
      /\ q1 + q2 + q3 == -1
      /\ Exec.App.handleCreatePool Exec.cancelling_api (Exec.routes_of Exec.seed_db)
                                   [1%Z; 2%Z; 3%Z]
         = Normal pool
      /\ Exec.App.PoolResult.totalCB pool = Binary64.zero
      /\ Exec.App.PoolResult.valid pool = true)
  /\ (exists pool : Exec.App.PoolResult.t,
         Exec.App.handleCreatePool Exec.tenths_api (Exec.routes_of Exec.seed_db)
                                   [1%Z; 2%Z; 3%Z]
         = Normal pool
         /\ Exec.App.PoolResult.totalCB pool = S754_finite true 4503599627370496 (-106)
         /\ Exec.App.PoolResult.valid pool = false).
Proof.
  split.
  - eexists. eexists. eexists. eexists. eexists.
    split; [vm_compute; reflexivity|].
    split; [vm_compute; reflexivity|].
    split; [vm_compute; reflexivity|].
    split; [vm_compute; reflexivity|].
    split; vm_compute; reflexivity.
  - eexists.
    split; [vm_compute; reflexivity|].
    split; vm_compute; reflexivity.
Qed.

(** C6, amended.  Whatever members a pool has, [handleCreatePool] reports
    as total the running binary64 sum of the members' adjusted balances,
    taken from 0 in the order of the route list, and reports the pool valid
    if and only if that running sum is at least 0: plus infinity, or a
    finite value that is not negative. *)
Theorem handleCreatePool_total_is_running_sum
        (getCompliance : string -> Completion Exec.ComplianceResult.t)
        (routes : list Exec.Route.t) (poolSelection : list Z)
        (members : list Exec.App.Member.t)
        (Hmembers : Exec.poolMembers getCompliance routes poolSelection = Normal members) :
  exists pool : Exec.App.PoolResult.t,
    Exec.App.handleCreatePool getCompliance routes poolSelection = Normal pool
    /\ Exec.App.PoolResult.totalCB pool
       = Binary64.sum (map Exec.App.Member.adjustedCB members)
    /\ (Exec.App.PoolResult.valid pool = true
        <-> Binary64.ge (Binary64.sum (map Exec.App.Member.adjustedCB members))
                        Binary64.zero = true)
    /\ (Exec.App.PoolResult.valid pool = true
        <-> (Binary64.sum (map Exec.App.Member.adjustedCB members) = S754_infinity false
             \/ exists q : Q,
                 Binary64.to_Q (Binary64.sum (map Exec.App.Member.adjustedCB members))
                 = Some q
                 /\ 0 <= q)).
Proof.
  rewrite exec_handleCreatePool_members, Hmembers. simpl.
  eexists. split; [reflexivity|]. simpl.
  split; [reflexivity|]. split; [reflexivity|].
  apply ge_zero_iff.
Qed.

Lemma handleCreatePool_total_is_running_sum_witness :
  exists (members : list Exec.App.Member.t) (pool : Exec.App.PoolResult.t),
    Exec.poolMembers Exec.tenths_api (Exec.routes_of Exec.seed_db) [1%Z; 2%Z; 3%Z]
    = Normal members
    /\ Exec.App.handleCreatePool Exec.tenths_api (Exec.routes_of Exec.seed_db)
                                 [1%Z; 2%Z; 3%Z]
       = Normal pool
    /\ Exec.App.PoolResult.totalCB pool
       = Binary64.add
           (Binary64.add (Binary64.add Binary64.zero (Binary64.of_Q (-0.1)))
                         (Binary64.of_Q (-0.2)))
           (Binary64.of_Q 0.3)
    /\ Exec.App.PoolResult.valid pool = false.
Proof.
  assert (Hm : exists members,
             Exec.poolMembers Exec.tenths_api (Exec.routes_of Exec.seed_db)
                              [1%Z; 2%Z; 3%Z]
             = Normal members)
    by (eexists; reflexivity).
  destruct Hm as [members Hm].
  destruct (handleCreatePool_total_is_running_sum
              Exec.tenths_api (Exec.routes_of Exec.seed_db) [1%Z; 2%Z; 3%Z] members Hm)
    as (pool & Hpool & Htotal & Hvalid & _).
  exists members, pool.
  split; [exact Hm|]. split; [exact Hpool|].
  injection Hm as <-.
  split; [exact Htotal|].
  apply not_true_is_false. intro H. apply Hvalid in H.
  vm_compute in H. discriminate.
Defined.

(** C7.  The allocation of [handleCreatePool] lists the members, whose
    adjusted balances are numbers, by descending adjusted balance, each
    with its adjusted balance as [before].  When the pool is valid, that
    is when the running sum of the adjusted balances is at least 0, a
    member whose balance is negative gets [after = 0] and a member whose
    balance is not negative keeps it; when the pool is invalid, every
    member keeps its balance. *)
Theorem handleCreatePool_allocation_as_executed
        (getCompliance : string -> Completion Exec.ComplianceResult.t)
        (routes : list Exec.Route.t) (poolSelection : list Z)
        (members : list Exec.App.Member.t)
        (Hmembers : Exec.poolMembers getCompliance routes poolSelection = Normal members)
        (Hnumbers : Forall (fun m => Binary64.isNumber (Exec.App.Member.adjustedCB m) = true)
                           members) :
  exists pool : Exec.App.PoolResult.t,
    Exec.App.handleCreatePool getCompliance routes poolSelection = Normal pool
    /\ StronglySorted (Exec.descending_by Exec.App.Allocation.before)
                      (Exec.App.PoolResult.results pool)
    /\ Permutation
         (map (fun a => (Exec.App.Allocation.id a, Exec.App.Allocation.before a))
              (Exec.App.PoolResult.results pool))
         (map (fun m => (Exec.App.Member.routeId m, Exec.App.Member.adjustedCB m)) members)
    /\ (Binary64.ge (Binary64.sum (map Exec.App.Member.adjustedCB members)) Binary64.zero
        = true ->
        Exec.App.PoolResult.valid pool = true
        /\ Forall (fun a =>
                     (Binary64.lt (Exec.App.Allocation.before a) Binary64.zero = true ->
                      Exec.App.Allocation.after a = Binary64.zero)
                     /\ (Binary64.ge (Exec.App.Allocation.before a) Binary64.zero = true ->
                         Exec.App.Allocation.after a = Exec.App.Allocation.before a))
                  (Exec.App.PoolResult.results pool))
    /\ (Binary64.ge (Binary64.sum (map Exec.App.Member.adjustedCB members)) Binary64.zero
        = false ->
        Exec.App.PoolResult.valid pool = false
        /\ Forall (fun a => Exec.App.Allocation.after a = Exec.App.Allocation.before a)
                  (Exec.App.PoolResult.results pool)).
Proof.
  rewrite exec_handleCreatePool_members, Hmembers. simpl.
  eexists. split; [reflexivity|]. simpl.
  set (totalCB := Binary64.sum (map Exec.App.Member.adjustedCB members)).
  split; [|split; [|split]].
  - apply (exec_descending_map _ Exec.App.Member.adjustedCB); [reflexivity|].
    now apply exec_sort_descending.
  - rewrite map_map. simpl.
    apply (Permutation_map
             (fun m => (Exec.App.Member.routeId m, Exec.App.Member.adjustedCB m))).
    apply exec_sort_Permutation.
  - intro Hvalid. rewrite Hvalid. split; [reflexivity|].
    apply Forall_map, Forall_forall. intros m _. simpl.
    destruct (Binary64.lt (Exec.App.Member.adjustedCB m) Binary64.zero) eqn:E.
    + split; [reflexivity|]. intro H.
      unfold Binary64.ge in H. apply le_zero_not_lt in H. congruence.
    + split; [discriminate | reflexivity].
  - intro Hvalid. rewrite Hvalid. split; [reflexivity|].
    apply Forall_map, Forall_forall. intros m _. reflexivity.
Qed.

Lemma handleCreatePool_allocation_as_executed_witness :
  exists (members : list Exec.App.Member.t) (pool : Exec.App.PoolResult.t),
    Exec.poolMembers Exec.fixed_api (Exec.routes_of Exec.seed_db) [1%Z; 2%Z]
    = Normal members
    /\ map (fun m => (Exec.App.Member.routeId m, Exec.App.Member.adjustedCB m)) members
       = [ ("R001"%string, Binary64.of_Q (-2000000));
           ("R002"%string, Binary64.of_Q 5000000) ]
    /\ Forall (fun m => Binary64.isNumber (Exec.App.Member.adjustedCB m) = true) members
    /\ Binary64.ge (Binary64.sum (map Exec.App.Member.adjustedCB members)) Binary64.zero
       = true
    /\ Exec.App.handleCreatePool Exec.fixed_api (Exec.routes_of Exec.seed_db) [1%Z; 2%Z]
       = Normal pool
    /\ Exec.App.PoolResult.valid pool = true
    /\ StronglySorted (Exec.descending_by Exec.App.Allocation.before)
                      (Exec.App.PoolResult.results pool)
    /\ Forall (fun a =>
                 (Binary64.lt (Exec.App.Allocation.before a) Binary64.zero = true ->
                  Exec.App.Allocation.after a = Binary64.zero)
                 /\ (Binary64.ge (Exec.App.Allocation.before a) Binary64.zero = true ->
                     Exec.App.Allocation.after a = Exec.App.Allocation.before a))
              (Exec.App.PoolResult.results pool)
    /\ Exec.App.PoolResult.results pool
       = [ Exec.App.Allocation.mk "R002" (Binary64.of_Q 5000000) (Binary64.of_Q 5000000);
           Exec.App.Allocation.mk "R001" (Binary64.of_Q (-2000000)) Binary64.zero ].
Proof.
  assert (Hm : exists members,
             Exec.poolMembers Exec.fixed_api (Exec.routes_of Exec.seed_db) [1%Z; 2%Z]
             = Normal members)
    by (eexists; reflexivity).
  destruct Hm as [members Hm].
  assert (Hnumbers : Forall (fun m => Binary64.isNumber (Exec.App.Member.adjustedCB m)
                                      = true) members)
    by (injection Hm as <-; repeat constructor).
  assert (Hsum : Binary64.ge (Binary64.sum (map Exec.App.Member.adjustedCB members))
                             Binary64.zero = true)
    by (injection Hm as <-; vm_compute; reflexivity).
  destruct (handleCreatePool_allocation_as_executed
              Exec.fixed_api (Exec.routes_of Exec.seed_db) [1%Z; 2%Z] members Hm Hnumbers)
    as (pool & Hpool & Hsorted & _ & Hvalid & _).
  destruct (Hvalid Hsum) as [Hv Hrules].
  exists members, pool.
  split; [exact Hm|].
  split; [injection Hm as <-; reflexivity|].
  split; [exact Hnumbers|]. split; [exact Hsum|]. split; [exact Hpool|].
  split; [exact Hv|]. split; [exact Hsorted|]. split; [exact Hrules|].
  vm_compute in Hpool. injection Hpool as <-. vm_compute. reflexivity.
Defined.

(** ** What the allocation changes *)

Lemma lt_zero_le (x : Binary64.t) :
  Binary64.lt x Binary64.zero = true -> Binary64.le x Binary64.zero = true.
Proof.
  destruct x as [s|s| |s m e]; try destruct s; cbv; congruence.
Qed.

Lemma not_lt_zero_ge (x : Binary64.t) :
  Binary64.isNaN x = false ->
  Binary64.lt x Binary64.zero = false -> Binary64.ge x Binary64.zero = true.
Proof.
  destruct x as [s|s| |s m e]; try destruct s; cbv; congruence.
Qed.

(** X23.  The allocation raises deficits and lowers nothing, so it does not
    conserve the balance.  For members whose adjusted balances are
    numbers, every [after] is at least [before]; in a valid pool every
    [after] is at least 0; and an [after] that differs from its [before]
    is the 0 given, in a valid pool, to a member in deficit. *)
Theorem handleCreatePool_raises_deficits_only
        (getCompliance : string -> Completion Exec.ComplianceResult.t)
        (routes : list Exec.Route.t) (poolSelection : list Z)
        (members : list Exec.App.Member.t)
        (Hmembers : Exec.poolMembers getCompliance routes poolSelection = Normal members)
        (Hnumbers : Forall (fun m => Binary64.isNumber (Exec.App.Member.adjustedCB m) = true)
                           members) :
  exists pool : Exec.App.PoolResult.t,
    Exec.App.handleCreatePool getCompliance routes poolSelection = Normal pool
    /\ Forall (fun a =>
                 Binary64.le (Exec.App.Allocation.before a) (Exec.App.Allocation.after a)
                 = true
                 /\ (Exec.App.PoolResult.valid pool = true ->
                     Binary64.ge (Exec.App.Allocation.after a) Binary64.zero = true)
                 /\ (Exec.App.Allocation.after a <> Exec.App.Allocation.before a ->
                     Exec.App.PoolResult.valid pool = true
                     /\ Binary64.lt (Exec.App.Allocation.before a) Binary64.zero = true
                     /\ Exec.App.Allocation.after a = Binary64.zero))
              (Exec.App.PoolResult.results pool).
Proof.
  rewrite exec_handleCreatePool_members, Hmembers. simpl.
  eexists. split; [reflexivity|]. simpl.
  set (totalCB := Binary64.sum (map Exec.App.Member.adjustedCB members)).
  apply Forall_map.
  apply (Permutation_Forall (Permutation_sym (exec_sort_Permutation _ members))).
  eapply Forall_impl; [|exact Hnumbers].
  intros m Hm. simpl.
  apply isNumber_iff in Hm. destruct Hm as [_ Hnan].
  pose proof (le_refl_number _ Hnan) as Hrefl.
  destruct (Binary64.ge totalCB Binary64.zero) eqn:Hvalid.
  - destruct (Binary64.lt (Exec.App.Member.adjustedCB m) Binary64.zero) eqn:E.
    + split; [now apply lt_zero_le|]. split; [reflexivity|]. auto.
    + split; [exact Hrefl|]. split; [intros _; now apply not_lt_zero_ge|].
      intro H. now contradiction H.
  - split; [exact Hrefl|]. split; [discriminate|].
    intro H. now contradiction H.
Qed.

Lemma handleCreatePool_raises_deficits_only_witness :
  exists (members : list Exec.App.Member.t) (pool : Exec.App.PoolResult.t),
    Exec.poolMembers Exec.fixed_api (Exec.routes_of Exec.seed_db) [2%Z; 1%Z]
    = Normal members
    /\ Forall (fun m => Binary64.isNumber (Exec.App.Member.adjustedCB m) = true) members
    /\ Exec.App.handleCreatePool Exec.fixed_api (Exec.routes_of Exec.seed_db) [2%Z; 1%Z]
       = Normal pool
    /\ Forall (fun a =>
                 Binary64.le (Exec.App.Allocation.before a) (Exec.App.Allocation.after a)
                 = true)
              (Exec.App.PoolResult.results pool)
    /\ map Exec.App.Allocation.before (Exec.App.PoolResult.results pool)
       = [Binary64.of_Q 5000000; Binary64.of_Q (-2000000)]
    /\ map Exec.App.Allocation.after (Exec.App.PoolResult.results pool)
       = [Binary64.of_Q 5000000; Binary64.zero].
Proof.
  assert (Hm : exists members,
             Exec.poolMembers Exec.fixed_api (Exec.routes_of Exec.seed_db) [2%Z; 1%Z]
             = Normal members)
    by (eexists; reflexivity).
  destruct Hm as [members Hm].
  assert (Hnumbers : Forall (fun m => Binary64.isNumber (Exec.App.Member.adjustedCB m)
                                      = true) members)
    by (injection Hm as <-; repeat constructor).
  destruct (handleCreatePool_raises_deficits_only
              Exec.fixed_api (Exec.routes_of Exec.seed_db) [2%Z; 1%Z] members Hm Hnumbers)
    as (pool & Hpool & Hrules).
  exists members, pool.
  split; [exact Hm|]. split; [exact Hnumbers|]. split; [exact Hpool|].
  split.
  - eapply Forall_impl; [|exact Hrules]. intros a Ha. exact (proj1 Ha).
  - vm_compute in Hpool. injection Hpool as <-. split; vm_compute; reflexivity.
Defined.

(** ** Values at the edge of the column types *)

(** A raw balance of about 0.041 is banked as 0.04. *)
Example bankSurplus_rounds_to_two_decimals :
  exists (status : Exec.ComplianceResult.t) (row : Exec.BankRow.t) (db' : Exec.Database),
    Exec.ComplianceService.calculateCB Exec.edge_db "E001" 2025 = Normal status
    /\ Binary64.toDecimal (Exec.ComplianceResult.cb status) = Some 0.04100000000136106
    /\ Exec.ComplianceService.bankSurplus Exec.edge_db "E001" 2025 = (Normal row, db')
    /\ Exec.BankRow.amount_gco2eq row = Pg.Hundredths 4.
Proof.
  eexists. eexists. eexists.
  split; [vm_compute; reflexivity|].
  split; [vm_compute; reflexivity|].
  split; vm_compute; reflexivity.
Qed.

(** A year beyond 32 bits: the INSERT is never run, and the sequence keeps
    its value. *)
Example bankSurplus_year_outside_INT :
  Exec.ComplianceService.bankSurplus Exec.seed_db "R002" 2147483648
  = (Abrupt (DatabaseError Pg.numeric_value_out_of_range), Exec.seed_db).
Proof. vm_compute. reflexivity. Qed.

(** An identifier beyond 32 bits is a database error, not a missing
    route. *)
Example setBaseline_id_outside_INT :
  Exec.PostgresRouteAdapter.setBaseline Exec.seed_db 2147483648
  = (Abrupt (DatabaseError Pg.numeric_value_out_of_range), Exec.seed_db)
  /\ Exec.PostgresRouteAdapter.setBaseline Exec.seed_db 6
     = (Abrupt (Error "Route not found"), Exec.seed_db).
Proof. split; reflexivity. Qed.

Example getBaseline_year_outside_INT :
  Exec.PostgresRouteAdapter.getBaseline Exec.seed_db 2147483648
  = Abrupt (DatabaseError Pg.numeric_value_out_of_range)
  /\ Exec.PostgresRouteAdapter.getBaseline Exec.seed_db 2024 = Normal None.
Proof. split; reflexivity. Qed.

(** The pool of -0.1, -0.2 and 0.3 is invalid, and every member keeps its
    balance. *)
Example handleCreatePool_tenths_pool_is_invalid :
  exists pool : Exec.App.PoolResult.t,
    Exec.App.handleCreatePool Exec.tenths_api (Exec.routes_of Exec.seed_db)
                              [1%Z; 2%Z; 3%Z]
    = Normal pool
    /\ Exec.App.PoolResult.valid pool = false
    /\ map Exec.App.Allocation.id (Exec.App.PoolResult.results pool)
       = ["R003"%string; "R001"%string; "R002"%string]
    /\ Forall (fun a => Exec.App.Allocation.after a = Exec.App.Allocation.before a)
              (Exec.App.PoolResult.results pool).
Proof.
  eexists. split; [vm_compute; reflexivity|].
  split; [reflexivity|]. split; [reflexivity|].
  repeat constructor.
Qed.
